(** * Rule- and vocabulary-based transformation of Alsatian text

    A shallow embedding of [rule_based_transformations.py] and
    [vocabulary_based_transformations_v2.py], and the properties of the
    specification stated over it.

    Conventions of the embedding.
    - A Python [str] is a list of Unicode code points ([list N]).
    - A text file is the list of the lines that iterating over the open file
      yields (each line still carries its line terminator); a file system is
      a partial map from paths to files.
    - Printing, writing CSV rows and raising are the effects of the code: a
      computation of type [Py A] threads the printed lines and the written
      rows, and ends normally with a value or with an exception.
    - The library functions and the tokeniser that the two programs call
      but do not define are gathered in the class [Externals]. *)

From Stdlib Require Import QArith Ascii String.
From stdpp Require Import base list gmap.

Local Open Scope N_scope.
Local Open Scope list_scope.

(** ** Strings *)

Abbreviation str := (list N).

(** An ASCII literal as a Python string. *)
Definition py (s : string) : str :=
  List.map N_of_ascii (list_ascii_of_string s).

Module Str.

(** [a.startswith(p)] *)
Fixpoint startswith (p a : str) : bool :=
  match p, a with
  | [], _ => true
  | _ :: _, [] => false
  | x :: p', y :: a' => (x =? y) && startswith p' a'
  end.

(** [sep.join(l)] *)
Fixpoint join (sep : str) (l : list str) : str :=
  match l with
  | [] => []
  | [x] => x
  | x :: rest => x ++ sep ++ join sep rest
  end.

(** [s.split(sep)] for a one-character separator: never empty. *)
Fixpoint split (sep : N) (s : str) : list str :=
  match s with
  | [] => [[]]
  | c :: s' =>
      if c =? sep then [] :: split sep s'
      else match split sep s' with
           | [] => [[c]]
           | w :: ws => (c :: w) :: ws
           end
  end.

(** The code points for which [str.isspace] holds: what [strip] removes. *)
Definition isspace (c : N) : bool :=
  ((9 <=? c) && (c <=? 13)) || ((28 <=? c) && (c <=? 32))
  || (c =? 133) || (c =? 160) || (c =? 5760)
  || ((8192 <=? c) && (c <=? 8202))
  || (c =? 8232) || (c =? 8233) || (c =? 8239) || (c =? 8287) || (c =? 12288).

Fixpoint lstrip (s : str) : str :=
  match s with
  | c :: s' => if isspace c then lstrip s' else s
  | [] => []
  end.

Definition rstrip (s : str) : str := rev (lstrip (rev s)).

(** [s.strip()] *)
Definition strip (s : str) : str := rstrip (lstrip s).

(** [s.replace(old, new)]: every non-overlapping occurrence, left to right.
    [skip] counts the characters of a replaced occurrence still to drop. *)
Fixpoint replace_from (old new s : str) (skip : nat) : str :=
  match s with
  | [] => []
  | c :: s' =>
      match skip with
      | S k => replace_from old new s' k
      | O =>
          if startswith old s
          then new ++ replace_from old new s' (Nat.pred (length old))
          else c :: replace_from old new s' 0
      end
  end.

Definition replace (old new s : str) : str :=
  match old with
  | [] => new ++ flat_map (fun c => c :: new) s
  | _ :: _ => replace_from old new s 0
  end.

End Str.

(** ** Accent normalisation *)

(** [re.sub('[...]', rep, form)] for a character class. *)
Definition re_sub_class (cls : list N) (rep : str) (form : str) : str :=
  flat_map (fun c => if bool_decide (c ∈ cls) then rep else [c]) form.

(** The eleven substitutions of [normalize_accents], in the order of the
    source (the two programs define the same function). *)
Definition accent_rules : list (list N * str) :=
  [ ([224; 225; 226], py "a");
    ([232; 234], py "e");
    ([236; 237; 238; 239], py "i");
    ([242; 243; 244], py "o");
    ([249; 250; 251], py "u");
    ([192; 193; 194], py "A");
    ([200; 202], py "E");
    ([204; 205; 206; 207], py "I");
    ([210; 211; 212], py "O");
    ([217; 218; 219], py "U");
    ([8217; 8216], py "'") ].

Definition apply_subs (rules : list (list N * str)) (form : str) : str :=
  fold_left (fun f r => re_sub_class r.1 r.2 f) rules form.

Definition normalize_accents (form : str) : str :=
  let form := re_sub_class [224; 225; 226] (py "a") form in
  let form := re_sub_class [232; 234] (py "e") form in
  let form := re_sub_class [236; 237; 238; 239] (py "i") form in
  let form := re_sub_class [242; 243; 244] (py "o") form in
  let form := re_sub_class [249; 250; 251] (py "u") form in
  let form := re_sub_class [192; 193; 194] (py "A") form in
  let form := re_sub_class [200; 202] (py "E") form in
  let form := re_sub_class [204; 205; 206; 207] (py "I") form in
  let form := re_sub_class [210; 211; 212] (py "O") form in
  let form := re_sub_class [217; 218; 219] (py "U") form in
  let form := re_sub_class [8217; 8216] (py "'") form in
  form.


(** ** Effects: printing, CSV rows, exceptions *)

Inductive exn :=
| FileNotFoundError | IndexError | ValueError
| AttributeError | NameError | UnboundLocalError
| ReError.

#[export] Instance exn_eq_dec : EqDecision exn.
Proof. solve_decision. Defined.

(** A field handed to [csvwriter.writerow]. *)
Inductive cell := CInt (n : Z) | CStr (s : str).

Record world := World { stdout : list str; csv : list (list cell) }.

Inductive res (A : Type) := Ok (a : A) | Raise (e : exn).
Arguments Ok {A} a.
Arguments Raise {A} e.

Definition Py (A : Type) : Type := world -> world * res A.

#[export] Instance Py_ret : MRet Py := fun A a w => (w, Ok a).
#[export] Instance Py_bind : MBind Py := fun A B k m w =>
  match m w with
  | (w', Ok a) => k a w'
  | (w', Raise e) => (w', Raise e)
  end.

Definition raise {A} (e : exn) : Py A := fun w => (w, Raise e).

(** [print(msg)] *)
Definition print (msg : str) : Py unit :=
  fun w => (World (stdout w ++ [msg]) (csv w), Ok tt).

(** [open(output_file_path, 'w')]: the output file starts empty. *)
Definition open_w : Py unit := fun w => (World (stdout w) [], Ok tt).

(** [csvwriter.writerow(row)] *)
Definition writerow (row : list cell) : Py unit :=
  fun w => (World (stdout w) (csv w ++ [row]), Ok tt).

(** [try: body except e: handler] *)
Definition try_except {A} (e : exn) (body handler : Py A) : Py A :=
  fun w =>
    match body w with
    | (w', Raise e') => if bool_decide (e' = e) then handler w' else (w', Raise e')
    | r => r
    end.

(** [l[i]] for [i >= 0] *)
Definition index {A} (l : list A) (i : nat) : Py A :=
  match l !! i with
  | Some x => mret x
  | None => raise IndexError
  end.

(** [l[-k]] for [k >= 1] *)
Definition index_neg {A} (l : list A) (k : nat) : Py A :=
  if (k <=? length l)%nat then index l (length l - k)%nat else raise IndexError.

(** [s[:-k]] *)
Definition slice_to_neg {A} (l : list A) (k : nat) : list A :=
  take (length l - k)%nat l.

(** A file system: the lines of each file that exists. *)
Definition filesystem := str -> option (list str).

(** [open(path, 'r')], then iteration over the lines. *)
Definition open_r (fs : filesystem) (path : str) : Py (list str) :=
  match fs path with
  | Some lines => mret lines
  | None => raise FileNotFoundError
  end.

Definition TAB : N := 9.
Definition SEMI : N := 59.
Definition SPACE : N := 32.

(** The trailing-space trim that both corpus transformers apply to the
    joined text: [if text[-2] == ' ': text = text[:-2] + text[-1]] *)
Definition trim_trailing_space (text : str) : Py str :=
  c ← index_neg text 2;
  if c =? SPACE
  then last ← index_neg text 1; mret (slice_to_neg text 2 ++ [last])
  else mret text.

(** The header row of both output files. *)
Definition header : list cell :=
  [CStr (py "ID"); CStr (py "Alsatian_transformed")].

Definition corpus_file_path : str := py "../input/smallcorpus.txt".

(** ** What the programs import

    [int], [re.search], the iteration order of a [set], [str.lower],
    [difflib.SequenceMatcher.ratio], [textwrap.fill] and the tokeniser are
    not defined by the two programs. *)

(** The value of a string of ASCII digits read in base 10. *)
Definition is_digit (c : N) : bool := (48 <=? c) && (c <=? 57).
Definition decimal (s : str) : Z :=
  fold_left (fun acc c => (10 * acc + Z.of_N (c - 48))%Z) s 0%Z.

(** What [re.search(pattern, s)] does: it returns a match, of which the
    code reads [match.group()], it returns [None], or it raises [re.error]
    because the pattern does not compile. *)
Inductive searched := Match (group : str) | NoMatch | BadPattern.

(** A form without regular-expression metacharacters. *)
Definition metachars : str := py ".^$*+?{}[]\|()".
Definition literal (form : str) : bool :=
  forallb (fun c => negb (bool_decide (c ∈ metachars))) form.

(** The pattern text that [create_dictionary] builds from the forms. *)
Definition alternation (forms : list str) : str :=
  py "(" ++ Str.join (py "|") forms ++ py ")".

(** Leftmost match of an alternation of literal forms; at that position the
    first alternative that matches. The result is [match.group()]. *)
Definition match_here (forms : list str) (s : str) : option str :=
  List.find (fun f => Str.startswith f s) forms.

Fixpoint search_literal (forms : list str) (s : str) : option str :=
  match match_here forms s with
  | Some g => Some g
  | None => match s with
            | [] => None
            | _ :: s' => search_literal forms s'
            end
  end.

Class Externals := {
  (** [[str(t) for t in RegExpTokeniser().tokenise(text).get_tokens()]] *)
  tokenise : str -> list str;
  (** [int(s)]: the integer, or [None] when it raises [ValueError]; on a
      string of at most 4300 ASCII digits it is the decimal value *)
  parse_int : str -> option Z;
  parse_int_decimal : forall s,
    s <> [] -> forallb is_digit s = true -> (length s <= 4300)%nat ->
    parse_int s = Some (decimal s);
  (** [re.search(pattern, s)]; on an alternation of literal forms the
      pattern compiles and the leftmost match is found *)
  re_search : str -> str -> searched;
  re_search_literal : forall forms s,
    forms <> [] -> forallb literal forms = true ->
    re_search (alternation forms) s
    = match search_literal forms s with
      | Some group => Match group
      | None => NoMatch
      end;
  (** the order in which a [set] is iterated, from its elements in the
      order of their insertion: some arrangement of the same elements *)
  set_iter : list str -> list str;
  set_iter_perm : forall l, set_iter l ≡ₚ l;
  (** [s.lower()] *)
  lower : str -> str;
  (** [SequenceMatcher(None, a, b).ratio()] *)
  ratio : str -> str -> Q;
  (** [textwrap.fill(text, width)] *)
  fill : str -> Z -> str
}.

(** [int(s)] as the code calls it. *)
Definition int `{Externals} (s : str) : Py Z :=
  match parse_int s with
  | Some n => mret n
  | None => raise ValueError
  end.

(** A [for] loop that updates a state and may raise. *)
Fixpoint for_each {A S} (body : S -> A -> Py S) (l : list A) (state : S) : Py S :=
  match l with
  | [] => mret state
  | x :: rest => state' ← body state x; for_each body rest state'
  end.

(** ** rule_based_transformations.py *)

Module Rules.
Section WithExternals.
Context `{Externals}.

(** [s.add(x)] on a set kept as its elements in insertion order *)
Definition set_add (x : str) (s : list str) : list str :=
  if bool_decide (x ∈ s) then s else s ++ [x].

(** [if target_link in dictionary: dictionary[target_link].add(link)
     else: dictionary[target_link] = {link}];
    the dictionary keeps its keys in insertion order. *)
Fixpoint dict_add (target_link link : str) (dictionary : list (str * list str))
  : list (str * list str) :=
  match dictionary with
  | [] => [(target_link, [link])]
  | (k, v) :: rest =>
      if bool_decide (k = target_link) then (k, set_add link v) :: rest
      else (k, v) :: dict_add target_link link rest
  end.

(** The three columns of a rule line. *)
Definition rule_columns (line : str) : Py (str * str * Z) :=
  let columns := Str.split TAB (Str.strip line) in
  link ← index columns 0;
  target_link ← index columns 1;
  c2 ← index columns 2;
  nbr_cases ← int c2;
  mret (link, target_link, nbr_cases).

Fixpoint read_rules (lines : list str) (dictionary : list (str * list str))
  : Py (list (str * list str)) :=
  match lines with
  | [] => mret dictionary
  | line :: rest =>
      '(link, target_link, nbr_cases) ← rule_columns line;
      read_rules rest
        (if (10 <=? nbr_cases)%Z then dict_add target_link link dictionary
         else dictionary)
  end.

(** [r'(' + '|'.join(value) + ')'], [value] being a set *)
Definition pattern_of (value : list str) : str :=
  alternation (set_iter value).

Definition create_dictionary (fs : filesystem) (dictionary_file_path : str)
  : Py (list (str * list str)) :=
  try_except FileNotFoundError
    (lines ← open_r fs dictionary_file_path;
     dictionary ← read_rules lines [];
     mret (List.map (fun kv : str * list str => (kv.1, [pattern_of kv.2])) dictionary))
    (print (py "File '" ++ dictionary_file_path ++ py "' not found.");;
     mret []).

(** One [re.search] and the [replace] that follows a match. *)
Definition apply_pattern (key : str) (modified_token pattern : str) : Py str :=
  match re_search pattern modified_token with
  | Match group => mret (Str.replace group key modified_token)
  | NoMatch => mret modified_token
  | BadPattern => raise ReError
  end.

(** The two loops over [linked_dict.items()] and over each pattern set. *)
Definition link_token (linked_dict : list (str * list str)) (token : str) : Py str :=
  for_each
    (fun modified_token (kp : str * list str) =>
       for_each (apply_pattern kp.1) (set_iter kp.2) modified_token)
    linked_dict token.

(** The body of the loop over the tokens of a line, on the pair of
    [linked_tokens] and [unaccented_tokens]. *)
Definition token_step (linked_dict : list (str * list str))
    (st : list str * option (list str)) (token : str)
  : Py (list str * option (list str)) :=
  modified_token ← link_token linked_dict token;
  let linked_tokens := st.1 ++ [modified_token] in
  mret (linked_tokens, Some (List.map normalize_accents linked_tokens)).

(** The loop over the tokens of a line. [unaccented_tokens] is assigned
    in the body of the loop only: it enters the loop with the value the
    previous line left ([None]: not yet bound). *)
Definition token_loop (linked_dict : list (str * list str)) (tokens : list str)
    (unaccented_tokens : option (list str)) : Py (list str * option (list str)) :=
  for_each (token_step linked_dict) tokens ([], unaccented_tokens).

(** The body of the loop over the lines of the corpus, up to the joined
    text: the text and the value [unaccented_tokens] is left with. *)
Definition joined_text (linked_dict : list (str * list str)) (line : str)
    (unaccented_tokens : option (list str)) : Py (str * option (list str)) :=
  let columns := Str.split SEMI (Str.strip line) in
  text ← index columns 1;
  let tokens := tokenise text in
  st ← token_loop linked_dict tokens unaccented_tokens;
  let unaccented_tokens := st.2 in
  match unaccented_tokens with
  | Some u => mret (Str.join (py " ") u, unaccented_tokens)
  | None => raise UnboundLocalError
  end.

(** The whole body: the trim and the row come after the join. *)
Definition process_line (linked_dict : list (str * list str)) (i : Z) (line : str)
    (unaccented_tokens : option (list str)) : Py (option (list str)) :=
  '(linked_text, unaccented_tokens) ← joined_text linked_dict line unaccented_tokens;
  linked_text ← trim_trailing_space linked_text;
  writerow [CInt i; CStr linked_text];;
  mret unaccented_tokens.

Fixpoint process_lines (linked_dict : list (str * list str)) (i : Z)
    (lines : list str) (unaccented_tokens : option (list str)) : Py unit :=
  match lines with
  | [] => mret tt
  | line :: rest =>
      u ← process_line linked_dict i line unaccented_tokens;
      process_lines linked_dict (i + 1)%Z rest u
  end.

Definition process_corpus (fs : filesystem) (corpus_file_path : str)
    (linked_dict : list (str * list str)) : Py unit :=
  open_w;;
  writerow header;;
  lines ← open_r fs corpus_file_path;
  process_lines linked_dict 1%Z lines None.

(** The [__main__] block. *)
Definition main (fs : filesystem) (dictionary_file_path : str) : Py unit :=
  linked_dict ← create_dictionary fs dictionary_file_path;
  process_corpus fs corpus_file_path linked_dict.

End WithExternals.
End Rules.

(** ** vocabulary_based_transformations_v2.py *)

Module Vocab.

(** What the name [vocab_language] can hold: [None], or the dictionary
    from an alsatian word to the pair of its translation and its
    part-of-speech tag. *)
Inductive value := VNone | VDict (d : gmap str (str * str)).

Definition unsupported_message : str :=
  py "The language you entered is not supported. Please try again.".

Definition Qltb (x y : Q) : bool := negb (Qle_bool y x).

Section WithExternals.
Context `{Externals}.

(** The loop over [translations_tab], on the pair
    [(max_sim_ratio, trad)] that starts as [(0.0, '')]. *)
Definition most_similar (aw : str) (translations_tab : list str) : Q * str :=
  fold_left
    (fun (st : Q * str) translation =>
       let sim_ratio := ratio aw translation in
       if Qltb st.1 sim_ratio then (sim_ratio, translation) else st)
    translations_tab (0%Q, []).

Definition choose_translation (aw : str) (translations_tab : list str) : Py str :=
  if (0 <? length translations_tab)%nat
  then mret (most_similar aw translations_tab).2
  else index translations_tab 0.

(** The loop over [alsatian_words]. *)
Fixpoint store_words (columns translations_tab alsatian_words : list str)
    (vocab_language : gmap str (str * str)) : Py (gmap str (str * str)) :=
  match alsatian_words with
  | [] => mret vocab_language
  | aw :: rest =>
      trad ← choose_translation aw translations_tab;
      pos ← index columns 1;
      store_words columns translations_tab rest (<[aw := (trad, pos)]> vocab_language)
  end.

(** The test of the language: the column of the translations, or [None]
    when the function prints and returns. *)
Definition translations_of (language : str) (columns : list str) : Py (option str) :=
  if bool_decide (language = py "de") then
    t ← index columns 3; mret (Some t)
  else if bool_decide (language = py "ltz") then
    t ← index columns 0; mret (Some t)
  else
    print unsupported_message;; mret None.

Fixpoint read_vocabulary (language : str) (lines : list str)
    (vocab_language : gmap str (str * str)) : Py value :=
  match lines with
  | [] => mret (VDict vocab_language)
  | line :: rest =>
      let columns := Str.split TAB (Str.strip line) in
      c2 ← index columns 2;
      let alsatian_words := Str.split SEMI c2 in
      translations ← translations_of language columns;
      match translations with
      | None => mret VNone
      | Some translations =>
          let translations_tab := Str.split SEMI translations in
          v ← store_words columns translations_tab alsatian_words vocab_language;
          read_vocabulary language rest v
      end
  end.

Definition create_vocabulary (fs : filesystem) (vocabulary_file_path language : str)
  : Py value :=
  lines ← open_r fs vocabulary_file_path;
  read_vocabulary language lines ∅.

(** [vocab_language.get(token.lower(), token)], on the module-level name
    [vocab_language] ([global_vocab]: [None] when the name is unbound).
    The result is the stored pair or the token itself. *)
Definition translate_token (global_vocab : option value) (token : str)
  : Py (str * str + str) :=
  match global_vocab with
  | None => raise NameError
  | Some VNone => raise AttributeError
  | Some (VDict d) =>
      mret (match d !! lower token with
            | Some entry => inl entry
            | None => inr token
            end)
  end.

Fixpoint translate_tokens (global_vocab : option value) (tokens : list str)
  : Py (list (str * str + str)) :=
  match tokens with
  | [] => mret []
  | token :: rest =>
      t ← translate_token global_vocab token;
      ts ← translate_tokens global_vocab rest;
      mret (t :: ts)
  end.

(** The loop over [zip(tokens, translation)]. *)
Definition unaccent (tokens : list str) (translation : list (str * str + str))
  : list str :=
  List.map
    (fun p : str * (str * str + str) =>
       match p.2 with
       | inl translated_token => translated_token.1
       | inr _ => normalize_accents p.1
       end)
    (zip tokens translation).

(** The body of the loop over the lines of the corpus, up to the joined
    text. *)
Definition joined_text (global_vocab : option value) (line : str) : Py str :=
  let columns := Str.split SEMI (Str.strip line) in
  text ← index columns 1;
  let tokens := tokenise text in
  translation ← translate_tokens global_vocab tokens;
  let unaccented_tokens := unaccent tokens translation in
  mret (Str.join (py " ") unaccented_tokens).

(** The whole body: the trim, the wrapping and the row come after the join. *)
Definition process_line (global_vocab : option value) (column_width : Z)
    (i : Z) (line : str) : Py unit :=
  modified_text ← joined_text global_vocab line;
  modified_text ← trim_trailing_space modified_text;
  let wrapped_text := fill modified_text column_width in
  writerow [CInt i; CStr wrapped_text].

Fixpoint process_lines (global_vocab : option value) (column_width : Z)
    (i : Z) (lines : list str) : Py unit :=
  match lines with
  | [] => mret tt
  | line :: rest =>
      process_line global_vocab column_width i line;;
      process_lines global_vocab column_width (i + 1)%Z rest
  end.

(** [process_corpus]; its parameter [vocab_language] does not occur in
    its body, [translate_token] reads the module-level name. *)
Definition process_corpus (global_vocab : option value) (fs : filesystem)
    (corpus_file_path : str) (vocab_language : value) (column_width : Z) : Py unit :=
  open_w;;
  writerow header;;
  lines ← open_r fs corpus_file_path;
  process_lines global_vocab column_width 1%Z lines.

(** The [__main__] block: the result of [create_vocabulary] is bound to
    the module-level name and passed as the argument. *)
Definition main (fs : filesystem) (vocabulary_file_path language : str) : Py unit :=
  vocab_language ← create_vocabulary fs vocabulary_file_path language;
  process_corpus (Some vocab_language) fs corpus_file_path vocab_language 50%Z.

End WithExternals.
End Vocab.

(** ** A reference instance of the imports

    Concrete versions of the imported functions, on which the programs can
    be run. *)

(** [difflib.SequenceMatcher(None, a, b)] as CPython's [difflib.py] has it,
    with no junk predicate and [autojunk] left on. *)
Module Difflib.

(** The elements that [__chain_b] drops from [b2j] as popular. *)
Definition popular (b : str) (c : N) : bool :=
  (200 <=? length b)%nat
  && (length b / 100 + 1 <? count_occ N.eq_dec b c)%nat.

(** One round of the loop of [find_longest_match]: [newj2len] as the
    list of its values at [j = 0 ..], from [j2len] shifted by one. *)
Fixpoint row_step (b : str) (ai : N) (blo bhi j : nat) (rest : str)
    (shifted : list nat) : list nat :=
  match rest, shifted with
  | bj :: rest', p :: shifted' =>
      (if (blo <=? j)%nat && (j <? bhi)%nat && (ai =? bj) && negb (popular b bj)
       then S p else O)
      :: row_step b ai blo bhi (S j) rest' shifted'
  | _, _ => []
  end.

(** [(besti, bestj, bestsize)] *)
Definition block : Type := nat * nat * nat.

Definition better (i : nat) (best : block) (jk : nat * nat) : block :=
  let '(j, k) := jk in
  if (best.2 <? k)%nat then (S i - k, S j - k, k)%nat else best.

Definition scan_a (a b : str) (blo bhi : nat) (st : list nat * block) (i : nat)
  : list nat * block :=
  let row := row_step b (nth i a 0) blo bhi 0 b (O :: st.1) in
  (row, fold_left (better i) (imap pair row) st.2).

Fixpoint extend_left (a b : str) (alo blo : nat) (fuel : nat) (best : block) : block :=
  match fuel with
  | O => best
  | S fuel' =>
      let '(besti, bestj, bestsize) := best in
      if (alo <? besti)%nat && (blo <? bestj)%nat
         && (nth (besti - 1) a 0 =? nth (bestj - 1) b 0)
      then extend_left a b alo blo fuel' (besti - 1, bestj - 1, S bestsize)%nat
      else best
  end.

Fixpoint extend_right (a b : str) (ahi bhi : nat) (fuel : nat) (best : block) : block :=
  match fuel with
  | O => best
  | S fuel' =>
      let '(besti, bestj, bestsize) := best in
      if (besti + bestsize <? ahi)%nat && (bestj + bestsize <? bhi)%nat
         && (nth (besti + bestsize) a 0 =? nth (bestj + bestsize) b 0)
      then extend_right a b ahi bhi fuel' (besti, bestj, S bestsize)
      else best
  end.

Definition find_longest_match (a b : str) (alo ahi blo bhi : nat) : block :=
  let start := (repeat O (length b), (alo, blo, O)) in
  let best := (fold_left (scan_a a b blo bhi) (seq alo (ahi - alo)) start).2 in
  let best := extend_left a b alo blo (length a) best in
  extend_right a b ahi bhi (length a) best.

(** The sum of the sizes of the blocks that [get_matching_blocks]
    collects from the window and, recursively, from what lies to the left
    and to the right of its longest match. *)
Fixpoint matches (fuel : nat) (a b : str) (alo ahi blo bhi : nat) : nat :=
  match fuel with
  | O => O
  | S fuel' =>
      let '(i, j, k) := find_longest_match a b alo ahi blo bhi in
      match k with
      | O => O
      | S _ =>
          (k + (if (alo <? i)%nat && (blo <? j)%nat
                then matches fuel' a b alo i blo j else O)
             + (if (i + k <? ahi)%nat && (j + k <? bhi)%nat
                then matches fuel' a b (i + k) ahi (j + k) bhi else O))%nat
      end
  end.

(** [2.0 * matches / length], or [1.0] when both strings are empty. The
    quotient is kept exact: the order of two such quotients is the one of
    their floating-point values as long as the lengths stay below 2^26. *)
Definition ratio (a b : str) : Q :=
  let length_ab := (length a + length b)%nat in
  match length_ab with
  | O => 1%Q
  | S _ =>
      Qmake (2 * Z.of_nat (matches (S (length a)) a b 0 (length a) 0 (length b)))
            (Pos.of_nat length_ab)
  end.

End Difflib.

Module Reference.

(** Modelled from the spec: the tokeniser ([alsatian_tokeniser] is not
    among the sources). The spec fixes only that it turns a text into an
    ordered sequence of token strings; this one cuts the text at spaces
    and keeps the pieces that are not empty. *)
Definition tokenise (text : str) : list str :=
  List.filter (fun w : str => negb (bool_decide (w = []))) (Str.split SPACE text).

(** [re.search] on the patterns [(form1|form2|...)] of literal forms, the
    patterns that [create_dictionary] builds from plain text. Every other
    pattern is taken here as one that does not compile; the theorems hold
    on every instance, of which only the law on literal forms is known. *)
Definition re_search (pattern s : str) : searched :=
  match pattern with
  | 40 :: body =>
      match rev body with
      | 41 :: inner =>
          let forms := Str.split 124 (rev inner) in
          if forallb literal forms
          then match search_literal forms s with
               | Some group => Match group
               | None => NoMatch
               end
          else BadPattern
      | _ => BadPattern
      end
  | _ => BadPattern
  end.

(** [int] on text in ASCII: surrounding whitespace (the characters 28 to
    31 are not among it), an optional sign, digits with single underscores
    between them, at most 4300 digits. Digits outside ASCII, which [int]
    reads too, are not read here: the programs are run on this instance
    with counts in ASCII only, and the theorems on every instance. *)
Definition int_space (c : N) : bool :=
  Str.isspace c && negb ((28 <=? c) && (c <=? 31)).

Fixpoint int_lstrip (s : str) : str :=
  match s with
  | c :: s' => if int_space c then int_lstrip s' else s
  | [] => []
  end.

Fixpoint int_digits (s : str) (acc : Z) (after_digit : bool) : option Z :=
  match s with
  | [] => if after_digit then Some acc else None
  | c :: s' =>
      if c =? 95 then (if after_digit then int_digits s' acc false else None)
      else if is_digit c
           then int_digits s' (10 * acc + Z.of_N (c - 48))%Z true
           else None
  end.

Definition parse_int (s : str) : option Z :=
  let body := rev (int_lstrip (rev (int_lstrip s))) in
  if (4300 <? length (List.filter is_digit body))%nat then None
  else match body with
       | [] => None
       | c :: r =>
           if c =? 43 then int_digits r 0%Z false
           else if c =? 45 then Z.opp <$> int_digits r 0%Z false
           else int_digits body 0%Z false
       end.

(** A set iterated in the order of insertion. *)
Definition set_iter (l : list str) : list str := l.

(** [str.lower] on Basic Latin and Latin-1. *)
Definition lower_char (c : N) : N :=
  if ((65 <=? c) && (c <=? 90))
     || ((192 <=? c) && (c <=? 222) && negb (c =? 215))
  then c + 32 else c.
Definition lower (s : str) : str := List.map lower_char s.

(** [textwrap.fill] on words separated by single spaces, none longer
    than the width: as many words on a line as fit. *)
Fixpoint fill_words (width : nat) (line : str) (words : list str) : str :=
  match words with
  | [] => line
  | w :: rest =>
      if (length line + 1 + length w <=? width)%nat
      then fill_words width (line ++ [SPACE] ++ w) rest
      else line ++ [10] ++ fill_words width w rest
  end.

Definition fill (text : str) (width : Z) : str :=
  match tokenise text with
  | [] => []
  | w :: rest => fill_words (Z.to_nat width) w rest
  end.

End Reference.

(** ** Definitions used by the statements and the proofs *)

(** A character that no class of [rules] contains. *)
Definition clean (rules : list (list N * str)) (c : N) : bool :=
  forallb (fun r : list N * str => negb (bool_decide (c ∈ r.1))) rules.

(** Every replacement text of [all] is clean for [all]. *)
Definition closed_rules (all : list (list N * str)) : bool :=
  forallb (fun r : list N * str => forallb (clean all) r.2) all.

(** A file system that holds the given files and nothing else. *)
Fixpoint files (l : list (str * list str)) : filesystem :=
  fun path =>
    match l with
    | [] => None
    | (p, lines) :: rest => if bool_decide (path = p) then Some lines else files rest path
    end.

(** The world before a run: nothing printed, nothing written. *)
Definition w0 : world := World [] [].

(** The exception that ends a line of the corpus when the name
    [vocab_language] holds [None]: the first token is looked up with
    [None.get]; without a token the trim reads the empty joined text, and
    without a text field [columns[1]] is out of range. *)
Definition error_without_table `{Externals} (line : str) : exn :=
  match Str.split SEMI (Str.strip line) !! 1%nat with
  | Some text =>
      match tokenise text with
      | _ :: _ => AttributeError
      | [] => IndexError
      end
  | None => IndexError
  end.

(** A line of a tab-separated file, and a line of the corpus. *)
Definition tsv (columns : list str) : str := Str.join [TAB] columns ++ [10].
Definition corpus_line (id text : string) : str :=
  py id ++ [SEMI] ++ py text ++ [SEMI; 10].

Definition rules_path : str := py "als_deu_rules.txt".
Definition vocabulary_path : str := py "alsatian_french_german_lod_aligned.txt".

(** A data row of the output file. *)
Definition row (i : Z) (text : string) : list cell := [CInt i; CStr (py text)].

(** A vocabulary of one line and a corpus of one line. *)
Definition one_word_files : filesystem :=
  files [(vocabulary_path, [tsv [py "Aarbecht"; py "N"; py "arwet;arbet"; py "Arbeit"]]);
         (corpus_file_path, [corpus_line "001" "Min Frai isch do"])].

(** The rule file and the corpus of the end-to-end scenario. *)
Definition frai_rule : str := Str.join [TAB] [py "frai"; py "frei"; py "15"].
Definition frai_line : str := py "001;Min Frai isch do;".
Definition frai_files : filesystem :=
  files [(rules_path, [frai_rule]); (corpus_file_path, [frai_line])].

(** A rule file with two source forms for one target form, and the same
    file with a rare row and a row at the threshold. *)
Definition ei_rules : list str :=
  [tsv [py "ai"; py "ei"; py "12"]; tsv [py "ay"; py "ei"; py "30"]].
Definition ei_files : filesystem := files [(rules_path, ei_rules)].
Definition threshold_rules : list str :=
  [tsv [py "ai"; py "ei"; py "12"]; tsv [py "oi"; py "eu"; py "9"];
   tsv [py "uu"; py "u"; py "10"]].
Definition threshold_rows : list (str * str * Z) :=
  [(py "ai", py "ei", 12%Z); (py "oi", py "eu", 9%Z); (py "uu", py "u", 10%Z)].
Definition threshold_files : filesystem := files [(rules_path, threshold_rules)].

(** Two corpora with the same second line, whose text field is empty. *)
Definition morge_files : filesystem :=
  files [(corpus_file_path, [corpus_line "001" "Guete Morge"; corpus_line "002" ""])].
Definition bonjour_files : filesystem :=
  files [(corpus_file_path, [corpus_line "001" "Bonjour"; corpus_line "002" ""])].
Definition empty_first_files : filesystem :=
  files [(corpus_file_path, [corpus_line "001" ""; corpus_line "002" "Bonjour"])].

(** A vocabulary line whose alsatian form shares no character with its
    two translations. *)
Definition ross_files : filesystem :=
  files [(vocabulary_path, [tsv [py "Paerd"; py "N"; py "Ross"; py "Pferd;Gaul"]])].

(** World and outcome of a run, apart. *)
Definition outcome {A} (r : world * res A) : res A := r.2.
Definition written {A} (r : world * res A) : list (list cell) := csv r.1.

(** The table rewrites [token] into [result] without raising. *)
Definition links_to `{Externals} (linked_dict : list (str * list str))
    (token result : str) : Prop :=
  forall w, Rules.link_token linked_dict token w = (w, Ok result).

(** A line of the rule file that reads as the row [r]: after [strip] and
    [split('\t')] its first two columns are the source form and the target
    form of [r], and [int] of its third column is the count of [r]. *)
Definition reads_as `{Externals} (line : str) (r : str * str * Z) : Prop :=
  exists count more,
    Str.split TAB (Str.strip line) = r.1.1 :: r.1.2 :: count :: more
    /\ parse_int count = Some r.2.

(** The elements of a list in the order of their first occurrences. *)
Fixpoint first_seen (l : list str) : list str :=
  match l with
  | [] => []
  | x :: l' => x :: List.filter (fun y => negb (bool_decide (y = x))) (first_seen l')
  end.

(** The target forms of the rows seen at least ten times, and the source
    forms that such rows give for one target form. *)
Definition frequent (r : str * str * Z) : bool := (10 <=? r.2)%Z.
Definition targets (rows : list (str * str * Z)) : list str :=
  List.map (fun r : str * str * Z => r.1.2) (List.filter frequent rows).
Definition links_for (target : str) (rows : list (str * str * Z)) : list str :=
  List.map (fun r : str * str * Z => r.1.1)
    (List.filter (fun r : str * str * Z => frequent r && bool_decide (r.1.2 = target)) rows).

(** What a row adds to the dictionary of [create_dictionary]. *)
Definition add_row (dictionary : list (str * list str)) (r : str * str * Z)
  : list (str * list str) :=
  if frequent r then Rules.dict_add r.1.2 r.1.1 dictionary else dictionary.

(** The target forms in the order of their first frequent rows, each with
    its source forms in the order of their first frequent rows. *)
Definition grouped (rows : list (str * str * Z)) : list (str * list str) :=
  List.map (fun t => (t, first_seen (links_for t rows))) (first_seen (targets rows)).

(** The table of a rule file from its rows: each group as one alternation,
    its forms in the order in which the set of the forms is iterated. *)
Definition table_of `{Externals} (rows : list (str * str * Z)) : list (str * list str) :=
  List.map (fun kv : str * list str => (kv.1, [alternation (set_iter kv.2)]))
    (grouped rows).

(** A block that lies between [alo] and [ahi] in the first string. *)
Definition in_window (alo ahi : nat) (best : Difflib.block) : Prop :=
  (alo <= best.1.1 /\ best.1.1 + best.2 <= ahi)%nat.

(** [d.get(key)] on a dictionary kept as the list of its items. *)
Fixpoint dict_get {V} (key : str) (d : list (str * V)) : option V :=
  match d with
  | [] => None
  | (k, v) :: rest => if bool_decide (k = key) then Some v else dict_get key rest
  end.

(** The characters that [normalize_accents] folds: the members of its
    eleven character classes. *)
Definition folded : list N := flat_map fst accent_rules.

(** The data rows of an output file whose first row has the number [i]. *)
Fixpoint numbered (i : Z) (texts : list str) : list (list cell) :=
  match texts with
  | [] => []
  | text :: rest => [CInt i; CStr text] :: numbered (i + 1)%Z rest
  end.

(** What the vocabulary-based transformer emits for a token when the
    dictionary [d] is bound to [vocab_language]. *)
Definition translated `{Externals} (d : gmap str (str * str)) (token : str) : str :=
  match d !! lower token with
  | Some entry => entry.1
  | None => normalize_accents token
  end.

(** [f in s] for two strings. *)
Definition contains (s f : str) : Prop := exists pre post, s = pre ++ f ++ post.

(** The column of the translations for the two supported languages. *)
Definition supported (language : str) (col : nat) : Prop :=
  (language = py "de" /\ col = 3%nat) \/ (language = py "ltz" /\ col = 0%nat).

(** The entries that a vocabulary row stores: every alsatian word of
    [words], in order, with the translation chosen among [tab] and the tag
    [pos]. *)
Definition row_update `{Externals} (pos : str) (tab words : list str)
    (vocab : gmap str (str * str)) : gmap str (str * str) :=
  fold_left (fun v aw => <[aw := ((Vocab.most_similar aw tab).2, pos)]> v) words vocab.

(** The alsatian words of a vocabulary line (none when the line has no
    third column). *)
Definition alsatian_words_of (line : str) : list str :=
  match Str.split TAB (Str.strip line) !! 2%nat with
  | Some c2 => Str.split SEMI c2
  | None => []
  end.

(** ** The reference instance satisfies the laws of the imports *)

Lemma split_without_sep sep (w : str) :
  sep ∉ w -> Str.split sep w = [w].
Proof.
  induction w as [|c w IH]; intros Hw; [reflexivity|].
  simpl. apply not_elem_of_cons in Hw as [Hc Hw].
  destruct (N.eqb_spec c sep) as [->|_]; [congruence|].
  rewrite IH by exact Hw. reflexivity.
Qed.

Lemma split_app_sep sep (w rest : str) :
  sep ∉ w -> Str.split sep (w ++ sep :: rest) = w :: Str.split sep rest.
Proof.
  induction w as [|c w IH]; intros Hw; simpl.
  - rewrite N.eqb_refl. reflexivity.
  - apply not_elem_of_cons in Hw as [Hc Hw].
    destruct (N.eqb_spec c sep) as [->|_]; [congruence|].
    rewrite IH by exact Hw. reflexivity.
Qed.

Lemma split_join sep (forms : list str) :
  forms <> [] -> Forall (fun f => sep ∉ f) forms ->
  Str.split sep (Str.join [sep] forms) = forms.
Proof.
  induction forms as [|f forms IH]; intros Hne Hall; [congruence|].
  apply Forall_cons in Hall as [Hf Hall].
  destruct forms as [|g forms].
  - simpl. apply split_without_sep, Hf.
  - change (Str.join [sep] (f :: g :: forms))
      with (f ++ sep :: Str.join [sep] (g :: forms)).
    rewrite split_app_sep by exact Hf.
    rewrite IH; [reflexivity|discriminate|exact Hall].
Qed.

Lemma literal_no_bar (f : str) : literal f = true -> 124 ∉ f.
Proof.
  unfold literal. rewrite forallb_forall. intros Hf Hin.
  apply list_elem_of_In, Hf in Hin.
  vm_compute in Hin. discriminate.
Qed.

Lemma reference_re_search_literal (forms : list str) (s : str) :
  forms <> [] -> forallb literal forms = true ->
  Reference.re_search (alternation forms) s
  = match search_literal forms s with
    | Some group => Match group
    | None => NoMatch
    end.
Proof.
  intros Hne Hlit. unfold alternation, Reference.re_search.
  change (py "(") with [40]. change (py ")") with [41]. change (py "|") with [124].
  simpl. rewrite rev_app_distr. simpl. rewrite rev_involutive.
  rewrite split_join; [rewrite Hlit; reflexivity|exact Hne|].
  apply Forall_forall. intros f Hf. apply literal_no_bar.
  rewrite forallb_forall in Hlit. apply Hlit, list_elem_of_In, Hf.
Qed.

Lemma digit_not_int_space (c : N) : is_digit c = true -> Reference.int_space c = false.
Proof.
  unfold is_digit, Reference.int_space, Str.isspace. intros Hc.
  apply andb_true_iff in Hc as [Hlo Hhi].
  apply N.leb_le in Hlo. apply N.leb_le in Hhi.
  repeat match goal with
         | |- context [(?a <=? c)] => destruct (N.leb_spec a c); try lia
         | |- context [(c <=? ?a)] => destruct (N.leb_spec c a); try lia
         | |- context [(c =? ?a)] => destruct (N.eqb_spec c a); try lia
         end; reflexivity.
Qed.

Lemma int_lstrip_digits (s : str) :
  s <> [] -> forallb is_digit s = true -> Reference.int_lstrip s = s.
Proof.
  destruct s as [|c s]; [congruence|]. intros _ Hs. simpl in *.
  apply andb_true_iff in Hs as [Hc _].
  rewrite (digit_not_int_space c Hc). reflexivity.
Qed.

Lemma int_digits_decimal (s : str) (acc : Z) (after_digit : bool) :
  forallb is_digit s = true -> (s <> [] \/ after_digit = true) ->
  Reference.int_digits s acc after_digit
  = Some (fold_left (fun a c => (10 * a + Z.of_N (c - 48))%Z) s acc).
Proof.
  revert acc after_digit. induction s as [|c s IH]; intros acc after_digit Hs Hne.
  - destruct Hne as [Hne| ->]; [congruence|reflexivity].
  - simpl in *. apply andb_true_iff in Hs as [Hc Hs]. rewrite Hc.
    destruct (N.eqb_spec c 95) as [->|_]; [discriminate Hc|].
    apply IH; [exact Hs|right; reflexivity].
Qed.

Lemma filter_digits (s : str) : forallb is_digit s = true -> List.filter is_digit s = s.
Proof.
  induction s as [|c s IH]; [reflexivity|]. simpl.
  intros Hs. apply andb_true_iff in Hs as [Hc Hs]. rewrite Hc, IH by exact Hs.
  reflexivity.
Qed.

Lemma forallb_rev {A} (f : A -> bool) (l : list A) :
  forallb f l = true -> forallb f (rev l) = true.
Proof.
  rewrite !forallb_forall. intros Hl x Hx. apply Hl, in_rev, Hx.
Qed.

Lemma reference_parse_int_decimal (s : str) :
  s <> [] -> forallb is_digit s = true -> (length s <= 4300)%nat ->
  Reference.parse_int s = Some (decimal s).
Proof.
  intros Hne Hs Hlen. unfold Reference.parse_int.
  rewrite (int_lstrip_digits s Hne Hs).
  rewrite (int_lstrip_digits (rev s)).
  - rewrite rev_involutive, (filter_digits s Hs).
    destruct (Nat.ltb_spec 4300 (length s)); [lia|].
    destruct s as [|c s]; [congruence|].
    pose proof Hs as Hc. simpl in Hc. apply andb_true_iff in Hc as [Hc _].
    destruct (N.eqb_spec c 43) as [->|_]; [discriminate Hc|].
    destruct (N.eqb_spec c 45) as [->|_]; [discriminate Hc|].
    apply int_digits_decimal; [exact Hs|left; discriminate].
  - intros Hrev. apply Hne. rewrite <- (rev_involutive s), Hrev. reflexivity.
  - apply forallb_rev, Hs.
Qed.

#[export] Instance reference : Externals := {|
  tokenise := Reference.tokenise;
  parse_int := Reference.parse_int;
  parse_int_decimal := reference_parse_int_decimal;
  re_search := Reference.re_search;
  re_search_literal := reference_re_search_literal;
  set_iter := Reference.set_iter;
  set_iter_perm := fun l => reflexivity l;
  lower := Reference.lower;
  ratio := Difflib.ratio;
  fill := Reference.fill
|}.

(** A second instance: the same imports, with sets iterated in the reverse
    of the insertion order (an order that Python allows as well). *)
Definition reversed_sets : Externals := {|
  tokenise := Reference.tokenise;
  parse_int := Reference.parse_int;
  parse_int_decimal := reference_parse_int_decimal;
  re_search := Reference.re_search;
  re_search_literal := reference_re_search_literal;
  set_iter := @rev str;
  set_iter_perm := fun l => Permutation_sym (Permutation_rev l);
  lower := Reference.lower;
  ratio := Difflib.ratio;
  fill := Reference.fill
|}.

(** * Properties *)

(** ** Accent normalisation *)

Lemma normalize_accents_subs form :
  normalize_accents form = apply_subs accent_rules form.
Proof. reflexivity. Qed.

Lemma re_sub_class_clean cls rep s :
  Forall (fun c => c ∉ cls) s -> re_sub_class cls rep s = s.
Proof.
  induction 1 as [|c s Hc _ IH]; [reflexivity|].
  unfold re_sub_class in *. simpl. rewrite IH.
  rewrite bool_decide_eq_false_2 by assumption. reflexivity.
Qed.

Lemma apply_subs_clean rules s :
  Forall (fun c => clean rules c = true) s -> apply_subs rules s = s.
Proof.
  induction rules as [|[cls rep] rules IH]; intros H; [reflexivity|].
  unfold apply_subs in *. simpl.
  rewrite re_sub_class_clean.
  - apply IH. eapply Forall_impl; [exact H|].
    intros c Hc. simpl in Hc. apply andb_true_iff in Hc. tauto.
  - eapply Forall_impl; [exact H|].
    intros c Hc. simpl in Hc. apply andb_true_iff in Hc.
    destruct Hc as [Hc _]. apply negb_true_iff, bool_decide_eq_false in Hc.
    exact Hc.
Qed.

Lemma re_sub_class_app cls rep s t :
  re_sub_class cls rep (s ++ t) = re_sub_class cls rep s ++ re_sub_class cls rep t.
Proof. unfold re_sub_class. apply flat_map_app. Qed.

Lemma apply_subs_app rules s t :
  apply_subs rules (s ++ t) = apply_subs rules s ++ apply_subs rules t.
Proof.
  revert s t. induction rules as [|r rules IH]; intros s t; [reflexivity|].
  unfold apply_subs in *. simpl. rewrite re_sub_class_app. apply IH.
Qed.

Lemma apply_subs_char_clean all pre suf c :
  closed_rules all = true ->
  all = pre ++ suf ->
  clean pre c = true ->
  Forall (fun d => clean all d = true) (apply_subs suf [c]).
Proof.
  intros Hclosed. revert pre.
  induction suf as [|[cls rep] suf IH]; intros pre Hall Hpre.
  - simpl. constructor; [|constructor].
    rewrite Hall, app_nil_r. exact Hpre.
  - unfold apply_subs. simpl. rewrite app_nil_r.
    destruct (bool_decide (c ∈ cls)) eqn:Hc.
    + assert (Hrep : Forall (fun d => clean all d = true) rep).
      { unfold closed_rules in Hclosed.
        rewrite forallb_forall in Hclosed.
        specialize (Hclosed (cls, rep)).
        rewrite Hall in Hclosed at 1.
        assert (Hin : In (cls, rep) (pre ++ (cls, rep) :: suf))
          by (apply in_or_app; right; left; reflexivity).
        specialize (Hclosed Hin). simpl in Hclosed.
        apply Forall_forall. intros d Hd.
        rewrite forallb_forall in Hclosed. apply Hclosed.
        apply list_elem_of_In. exact Hd. }
      fold (apply_subs suf rep). rewrite apply_subs_clean; [exact Hrep|].
      eapply Forall_impl; [exact Hrep|].
      intros d Hd. subst all. unfold clean in *.
      rewrite forallb_app in Hd. simpl in Hd.
      apply andb_true_iff in Hd as [_ Hd].
      apply andb_true_iff in Hd as [_ Hd]. exact Hd.
    + apply (IH (pre ++ [(cls, rep)])).
      * rewrite <- app_assoc. exact Hall.
      * unfold clean. rewrite forallb_app. simpl.
        rewrite Hc. simpl. rewrite andb_true_r. exact Hpre.
Qed.

Lemma apply_subs_all_clean all s :
  closed_rules all = true ->
  Forall (fun d => clean all d = true) (apply_subs all s).
Proof.
  intros Hclosed. induction s as [|c s IH].
  - rewrite apply_subs_clean; constructor.
  - change (c :: s) with ([c] ++ s). rewrite apply_subs_app.
    apply Forall_app. split; [|exact IH].
    apply (apply_subs_char_clean all [] all c Hclosed); reflexivity.
Qed.

(** C10: applying [normalize_accents] twice gives the same string as
    applying it once, for every string. *)
Theorem normalize_accents_idempotent (s : str) :
  normalize_accents (normalize_accents s) = normalize_accents s.
Proof.
  rewrite !normalize_accents_subs.
  apply apply_subs_clean, apply_subs_all_clean.
  vm_compute. reflexivity.
Qed.

(** The accents that are folded and one that is not: 'à' becomes 'a', the
    'é' of 'café' stays. *)
Example normalize_accents_cafe :
  normalize_accents ([224] ++ py " la caf" ++ [233])
  = py "a la caf" ++ [233].
Proof. reflexivity. Qed.

(** ** Running a computation *)

Lemma bind_run {A B} (m : Py A) (k : A -> Py B) (w : world) :
  (m ≫= k) w = match m w with
               | (w', Ok a) => k a w'
               | (w', Raise e) => (w', Raise e)
               end.
Proof. reflexivity. Qed.

Lemma bind_ok {A B} (m : Py A) (k : A -> Py B) (w w' : world) (a : A) :
  m w = (w', Ok a) -> (m ≫= k) w = k a w'.
Proof. intros Hm. rewrite bind_run, Hm. reflexivity. Qed.

Lemma bind_raise {A B} (m : Py A) (k : A -> Py B) (w w' : world) (e : exn) :
  m w = (w', Raise e) -> (m ≫= k) w = (w', Raise e).
Proof. intros Hm. rewrite bind_run, Hm. reflexivity. Qed.

Lemma index_neg_short {A} (l : list A) (k : nat) (w : world) :
  (length l < k)%nat -> index_neg l k w = (w, Raise IndexError).
Proof.
  intros Hlen. unfold index_neg.
  destruct (Nat.leb_spec k (length l)); [lia|reflexivity].
Qed.

Lemma index_neg_lookup {A} (l : list A) (k : nat) (x : A) (w : world) :
  (k <= length l)%nat -> l !! (length l - k)%nat = Some x ->
  index_neg l k w = (w, Ok x).
Proof.
  intros Hlen Hx. unfold index_neg, index.
  destruct (Nat.leb_spec k (length l)); [|lia].
  rewrite Hx. reflexivity.
Qed.

(** ** The trailing-space trim *)

Lemma trim_short (text : str) (w : world) :
  (length text < 2)%nat -> trim_trailing_space text w = (w, Raise IndexError).
Proof.
  intros Hlen. unfold trim_trailing_space.
  apply bind_raise, index_neg_short, Hlen.
Qed.

Lemma trim_space (text : str) (c : N) (w : world) :
  (2 <= length text)%nat ->
  text !! (length text - 2)%nat = Some SPACE ->
  text !! (length text - 1)%nat = Some c ->
  trim_trailing_space text w = (w, Ok (take (length text - 2) text ++ [c])).
Proof.
  intros Hlen H2 H1. unfold trim_trailing_space.
  rewrite (bind_ok _ _ w w SPACE) by (apply index_neg_lookup; [lia|exact H2]).
  rewrite N.eqb_refl.
  rewrite (bind_ok _ _ w w c) by (apply index_neg_lookup; [lia|exact H1]).
  reflexivity.
Qed.

Lemma trim_no_space (text : str) (d : N) (w : world) :
  (2 <= length text)%nat ->
  text !! (length text - 2)%nat = Some d -> d <> SPACE ->
  trim_trailing_space text w = (w, Ok text).
Proof.
  intros Hlen H2 Hd. unfold trim_trailing_space.
  rewrite (bind_ok _ _ w w d) by (apply index_neg_lookup; [lia|exact H2]).
  destruct (N.eqb_spec d SPACE); [contradiction|reflexivity].
Qed.

(** C8: in both corpus transformers the trim reads the second-to-last
    character of the joined text without a test of the length. On a joined
    text of length 0 or 1 the read raises [IndexError] and the run of the
    corpus ends with that exception, which nothing catches; on a joined text
    of length at least 2 whose second-to-last character is a space the text
    written is [text[:-2]] followed by the last character. *)
Theorem trim_reads_second_to_last `{Externals} :
  (forall text w, (length text < 2)%nat ->
     trim_trailing_space text w = (w, Raise IndexError))
  /\ (forall text c w,
        (2 <= length text)%nat ->
        text !! (length text - 2)%nat = Some SPACE ->
        text !! (length text - 1)%nat = Some c ->
        trim_trailing_space text w = (w, Ok (take (length text - 2) text ++ [c])))
  /\ (forall linked_dict i line rest u w w' text u',
        Rules.joined_text linked_dict line u w = (w', Ok (text, u')) ->
        ((length text < 2)%nat ->
         Rules.process_lines linked_dict i (line :: rest) u w = (w', Raise IndexError))
        /\ (forall c,
              (2 <= length text)%nat ->
              text !! (length text - 2)%nat = Some SPACE ->
              text !! (length text - 1)%nat = Some c ->
              Rules.process_line linked_dict i line u w
              = (World (stdout w')
                       (csv w' ++ [[CInt i; CStr (take (length text - 2) text ++ [c])]]),
                 Ok u')))
  /\ (forall g width i line rest w w' text,
        Vocab.joined_text g line w = (w', Ok text) ->
        ((length text < 2)%nat ->
         Vocab.process_lines g width i (line :: rest) w = (w', Raise IndexError))
        /\ (forall c,
              (2 <= length text)%nat ->
              text !! (length text - 2)%nat = Some SPACE ->
              text !! (length text - 1)%nat = Some c ->
              Vocab.process_line g width i line w
              = (World (stdout w')
                       (csv w' ++ [[CInt i;
                                    CStr (fill (take (length text - 2) text ++ [c]) width)]]),
                 Ok tt))).
Proof.
  split; [intros; apply trim_short; assumption|].
  split; [intros; apply trim_space; assumption|].
  split.
  - intros linked_dict i line rest u w w' text u' Hj. split.
    + intros Hlen. simpl. apply bind_raise.
      unfold Rules.process_line. rewrite (bind_ok _ _ _ _ _ Hj).
      apply bind_raise, trim_short, Hlen.
    + intros c Hlen H2 H1.
      unfold Rules.process_line. rewrite (bind_ok _ _ _ _ _ Hj).
      rewrite (bind_ok _ _ _ _ _ (trim_space text c w' Hlen H2 H1)).
      reflexivity.
  - intros g width i line rest w w' text Hj. split.
    + intros Hlen. simpl. apply bind_raise.
      unfold Vocab.process_line. rewrite (bind_ok _ _ _ _ _ Hj).
      apply bind_raise, trim_short, Hlen.
    + intros c Hlen H2 H1.
      unfold Vocab.process_line. rewrite (bind_ok _ _ _ _ _ Hj).
      rewrite (bind_ok _ _ _ _ _ (trim_space text c w' Hlen H2 H1)).
      reflexivity.
Qed.

(** A last token of one character is joined to the text before it, and a
    line whose only token has one character ends the run. *)
Example trim_on_short_last_token :
  Rules.process_corpus (files [(corpus_file_path, [corpus_line "001" "Er isch do ."])])
                       corpus_file_path [] w0
  = (World [] [header; row 1 "Er isch do."], Ok tt)
  /\ Rules.process_corpus (files [(corpus_file_path, [corpus_line "001" "?"])])
                          corpus_file_path [] w0
     = (World [] [header], Raise IndexError)
  /\ Vocab.process_corpus (Some (Vocab.VDict ∅))
                          (files [(corpus_file_path, [corpus_line "001" "?"])])
                          corpus_file_path (Vocab.VDict ∅) 50 w0
     = (World [] [header], Raise IndexError).
Proof. repeat split; vm_compute; reflexivity. Qed.

(** ** The vocabulary argument of [process_corpus] *)

(** C9: the rows that the vocabulary-based [process_corpus] writes do not
    depend on the value passed as its [vocab_language] argument, whatever
    the corpus; the table that [translate_token] reads is the one bound to
    the module-level name, and the rows do depend on that one. *)
Theorem process_corpus_ignores_vocab_argument :
  (forall (E : Externals) g fs path (v1 v2 : Vocab.value) width w,
     Vocab.process_corpus g fs path v1 width w
     = Vocab.process_corpus g fs path v2 width w)
  /\ (let fs := files [(corpus_file_path, [corpus_line "001" "Er isch do"])] in
      let table : gmap str (str * str) := {[ py "isch" := (py "ist", py "V") ]} in
      written (Vocab.process_corpus (Some (Vocab.VDict ∅)) fs corpus_file_path
                                    Vocab.VNone 50 w0)
      = [header; row 1 "Er isch do"]
      /\ written (Vocab.process_corpus (Some (Vocab.VDict table)) fs corpus_file_path
                                       Vocab.VNone 50 w0)
         = [header; row 1 "Er ist do"]).
Proof.
  split; [reflexivity|].
  split; vm_compute; reflexivity.
Qed.

(** ** Language selectors and missing files in the vocabulary path *)

Lemma create_vocabulary_missing_file `{Externals} fs path language w :
  fs path = None ->
  Vocab.create_vocabulary fs path language w = (w, Raise FileNotFoundError).
Proof.
  intros Hfs. unfold Vocab.create_vocabulary, open_r. rewrite Hfs. reflexivity.
Qed.

Lemma create_dictionary_missing_file `{Externals} fs path w :
  fs path = None ->
  Rules.create_dictionary fs path w
  = (World (stdout w ++ [py "File '" ++ path ++ py "' not found."]) (csv w), Ok []).
Proof.
  intros Hfs. unfold Rules.create_dictionary, try_except, open_r.
  rewrite bind_run, Hfs. reflexivity.
Qed.

(** C5: with no vocabulary file, [create_vocabulary] raises
    [FileNotFoundError]: nothing is printed, no table is returned and the
    run ends there, before the output file is opened. With no rule file,
    [create_dictionary] prints its message and returns the empty table, and
    the corpus is then processed with it. *)
Theorem create_vocabulary_missing_file_raises :
  let fs := files [(corpus_file_path, [corpus_line "001" "Er isch do"])] in
  Vocab.create_vocabulary fs vocabulary_path (py "de") w0
  = (w0, Raise FileNotFoundError)
  /\ Vocab.main fs vocabulary_path (py "de") w0 = (w0, Raise FileNotFoundError)
  /\ Rules.create_dictionary fs rules_path w0
     = (World [py "File 'als_deu_rules.txt' not found."] [], Ok [])
  /\ Rules.main fs rules_path w0
     = (World [py "File 'als_deu_rules.txt' not found."]
              [header; row 1 "Er isch do"], Ok tt).
Proof. repeat split; vm_compute; reflexivity. Qed.

Lemma vocab_process_corpus_run `{Externals} g fs path v width lines w :
  fs path = Some lines ->
  Vocab.process_corpus g fs path v width w
  = Vocab.process_lines g width 1 lines (World (stdout w) [header]).
Proof.
  intros Hfs. unfold Vocab.process_corpus, open_r. rewrite Hfs. reflexivity.
Qed.

Lemma rules_process_corpus_run `{Externals} fs path linked_dict lines w :
  fs path = Some lines ->
  Rules.process_corpus fs path linked_dict w
  = Rules.process_lines linked_dict 1 lines None (World (stdout w) [header]).
Proof.
  intros Hfs. unfold Rules.process_corpus, open_r. rewrite Hfs. reflexivity.
Qed.

Lemma vocab_line_without_table `{Externals} width i line w :
  Vocab.process_line (Some Vocab.VNone) width i line w
  = (w, Raise (error_without_table line)).
Proof.
  unfold Vocab.process_line, Vocab.joined_text, error_without_table.
  rewrite !bind_run. unfold index.
  destruct (Str.split SEMI (Str.strip line) !! 1%nat) as [text|]; [|reflexivity].
  cbn [mret Py_ret].
  destruct (tokenise text) as [|token tokens] eqn:Htok.
  - rewrite bind_run. cbn. reflexivity.
  - rewrite bind_run. cbn. reflexivity.
Qed.

(** When the language is neither 'de' nor 'ltz' and the first line of the
    vocabulary file has its third column, [create_vocabulary] prints its
    message and returns [None]. The run that follows does not pass the
    tokens through: the name [vocab_language] holds [None], the header is
    written, and on a corpus that has a line the first line ends the run:
    with [AttributeError] at the lookup of its first token, with
    [IndexError] when it gives no token or has no text field. *)
Lemma unsupported_language_returns_none `{Externals}
    fs vocabulary_file_path language line rest cline crest w :
  language <> py "de" -> language <> py "ltz" ->
  fs vocabulary_file_path = Some (line :: rest) ->
  (2 < length (Str.split TAB (Str.strip line)))%nat ->
  fs corpus_file_path = Some (cline :: crest) ->
  Vocab.create_vocabulary fs vocabulary_file_path language w
  = (World (stdout w ++ [Vocab.unsupported_message]) (csv w), Ok Vocab.VNone)
  /\ Vocab.main fs vocabulary_file_path language w
     = (World (stdout w ++ [Vocab.unsupported_message]) [header],
        Raise (error_without_table cline)).
Proof.
  intros Hde Hltz Hfs Hcols Hcorpus.
  assert (Hcreate :
    Vocab.create_vocabulary fs vocabulary_file_path language w
    = (World (stdout w ++ [Vocab.unsupported_message]) (csv w), Ok Vocab.VNone)).
  { unfold Vocab.create_vocabulary, open_r. rewrite Hfs.
    rewrite bind_run. cbn [mret Py_ret Vocab.read_vocabulary].
    destruct (lookup_lt_is_Some_2 (Str.split TAB (Str.strip line)) 2%nat Hcols)
      as [c2 Hc2].
    rewrite bind_run. unfold index at 1. rewrite Hc2. cbn [mret Py_ret].
    rewrite bind_run. unfold Vocab.translations_of.
    rewrite !bool_decide_eq_false_2 by assumption.
    reflexivity. }
  split; [exact Hcreate|].
  unfold Vocab.main. rewrite (bind_ok _ _ _ _ _ Hcreate).
  rewrite (vocab_process_corpus_run _ _ _ _ _ _ _ Hcorpus).
  cbn [Vocab.process_lines stdout].
  rewrite bind_run, vocab_line_without_table. reflexivity.
Qed.

(** C1: the run on a vocabulary of one line, the corpus line
    '001;Min Frai isch do;' and the selector 'xx'. [create_vocabulary]
    prints its message and returns [None]; the run then writes the header
    and ends with [AttributeError] at the lookup of the first token: it
    does not complete, and the row of accent-normalised tokens is not
    written. *)
Theorem unsupported_language_run_aborts :
  Vocab.create_vocabulary one_word_files vocabulary_path (py "xx") w0
  = (World [Vocab.unsupported_message] [], Ok Vocab.VNone)
  /\ Vocab.main one_word_files vocabulary_path (py "xx") w0
     = (World [Vocab.unsupported_message] [header], Raise AttributeError)
  /\ outcome (Vocab.main one_word_files vocabulary_path (py "xx") w0) <> Ok tt
  /\ written (Vocab.main one_word_files vocabulary_path (py "xx") w0)
     <> [header; [CInt 1; CStr (Str.join (py " ")
                                  (List.map normalize_accents
                                     (tokenise (py "Min Frai isch do"))))]].
Proof.
  assert (Hrun : Vocab.main one_word_files vocabulary_path (py "xx") w0
                 = (World [Vocab.unsupported_message] [header], Raise AttributeError))
    by (vm_compute; reflexivity).
  rewrite Hrun. split; [vm_compute; reflexivity|].
  repeat split; discriminate.
Qed.

(** ** Lookups in an empty table *)

Lemma translate_tokens_empty_table `{Externals} (tokens : list str) (w : world) :
  Vocab.translate_tokens (Some (Vocab.VDict ∅)) tokens w = (w, Ok (List.map inr tokens)).
Proof.
  induction tokens as [|token tokens IH]; [reflexivity|].
  simpl. rewrite bind_run. simpl. rewrite lookup_empty.
  rewrite bind_run, IH. reflexivity.
Qed.

Lemma unaccent_not_found (tokens : list str) :
  Vocab.unaccent tokens (List.map inr tokens) = List.map normalize_accents tokens.
Proof.
  unfold Vocab.unaccent. induction tokens as [|token tokens IH]; [reflexivity|].
  simpl. f_equal. exact IH.
Qed.

(** With the empty dictionary bound to [vocab_language] (not [None]), every
    lookup takes the not-found branch and the joined text is made of the
    accent-normalised tokens. *)
Lemma empty_table_passes_tokens_through `{Externals} (line text : str) (w : world) :
  Str.split SEMI (Str.strip line) !! 1%nat = Some text ->
  Vocab.joined_text (Some (Vocab.VDict ∅)) line w
  = (w, Ok (Str.join (py " ") (List.map normalize_accents (tokenise text)))).
Proof.
  intros Htext. unfold Vocab.joined_text, index. rewrite Htext.
  rewrite bind_run. cbn [mret Py_ret].
  rewrite (bind_ok _ _ _ _ _ (translate_tokens_empty_table (tokenise text) w)).
  rewrite unaccent_not_found. reflexivity.
Qed.

(** ** The choice among the translations *)

Lemma Qltb_lt (x y : Q) : Vocab.Qltb x y = true <-> (x < y)%Q.
Proof.
  unfold Vocab.Qltb. rewrite negb_true_iff. split.
  - intros Hle. apply Qnot_le_lt. intros Hyx.
    apply Qle_bool_iff in Hyx. congruence.
  - intros Hlt. destruct (Qle_bool y x) eqn:Hle; [|reflexivity].
    apply Qle_bool_iff in Hle. exfalso. exact (Qlt_not_le _ _ Hlt Hle).
Qed.

Lemma Qltb_ge (x y : Q) : Vocab.Qltb x y = false <-> (y <= x)%Q.
Proof.
  unfold Vocab.Qltb. rewrite negb_false_iff. apply Qle_bool_iff.
Qed.

(** The loop from any state [(mx, trad)]: the state is kept when no
    candidate is above [mx]; otherwise it ends on the first candidate whose
    ratio is the greatest. *)
Lemma most_similar_from `{Externals} (aw : str) (tab : list str) (mx : Q) (trad : str) :
  let step := fun (st : Q * str) translation =>
                if Vocab.Qltb st.1 (ratio aw translation)
                then (ratio aw translation, translation) else st in
  (Forall (fun t => (ratio aw t <= mx)%Q) tab
   /\ fold_left step tab (mx, trad) = (mx, trad))
  \/ (exists pre t post,
        tab = pre ++ t :: post
        /\ fold_left step tab (mx, trad) = (ratio aw t, t)
        /\ (mx < ratio aw t)%Q
        /\ Forall (fun p => (ratio aw p < ratio aw t)%Q) pre
        /\ Forall (fun q => (ratio aw q <= ratio aw t)%Q) post).
Proof.
  intros step. revert mx trad.
  induction tab as [|t tab IH]; intros mx trad.
  - left. split; [constructor|reflexivity].
  - simpl. unfold step at 2 4. simpl.
    destruct (Vocab.Qltb mx (ratio aw t)) eqn:Hlt.
    + apply Qltb_lt in Hlt. right.
      destruct (IH (ratio aw t) t) as [[Hall Hfold]|(pre & t' & post & -> & Hfold & Hgt & Hpre & Hpost)].
      * exists [], t, tab. repeat split; auto.
      * exists (t :: pre), t', post. repeat split; auto.
        eapply Qlt_trans; eassumption.
    + apply Qltb_ge in Hlt.
      destruct (IH mx trad) as [[Hall Hfold]|(pre & t' & post & -> & Hfold & Hgt & Hpre & Hpost)].
      * left. split; [constructor; assumption|exact Hfold].
      * right. exists (t :: pre), t', post. repeat split; auto.
        constructor; [|exact Hpre]. eapply Qle_lt_trans; eassumption.
Qed.

(** What [most_similar] stores: the first candidate of the greatest ratio
    when some candidate has a positive ratio, and the empty string when
    none has. *)
Lemma most_similar_spec `{Externals} (aw : str) (tab : list str) :
  (Forall (fun t => (ratio aw t <= 0)%Q) tab
   /\ Vocab.most_similar aw tab = (0%Q, []))
  \/ (exists pre t post,
        tab = pre ++ t :: post
        /\ Vocab.most_similar aw tab = (ratio aw t, t)
        /\ (0 < ratio aw t)%Q
        /\ Forall (fun p => (ratio aw p < ratio aw t)%Q) pre
        /\ Forall (fun q => (ratio aw q <= ratio aw t)%Q) post).
Proof. apply (most_similar_from aw tab 0%Q []). Qed.

(** C2: the row whose alsatian form 'Ross' has the two translations
    'Pferd' and 'Gaul'. Both ratios are 0, the loop keeps its initial state
    and the translation stored for 'Ross' is the empty string, which is
    neither candidate. *)
Theorem zero_ratio_stores_empty_translation :
  (Difflib.ratio (py "Ross") (py "Pferd") == 0)%Q
  /\ (Difflib.ratio (py "Ross") (py "Gaul") == 0)%Q
  /\ Vocab.most_similar (py "Ross") [py "Pferd"; py "Gaul"] = (0%Q, [])
  /\ Vocab.create_vocabulary ross_files vocabulary_path (py "de") w0
     = (w0, Ok (Vocab.VDict {[ py "Ross" := ([], py "N") ]})).
Proof. repeat split; vm_compute; reflexivity. Qed.

(** The scenario of the specification: 'schaffe' with the candidates
    'schaffen' and 'schafen'. *)
Example schaffe_chooses_schaffen :
  Vocab.most_similar (py "schaffe") [py "schaffen"; py "schafen"]
  = ((14 # 15)%Q, py "schaffen")
  /\ Vocab.most_similar (py "schaffe") [py "schafen"; py "schaffen"]
     = ((14 # 15)%Q, py "schaffen").
Proof. split; vm_compute; reflexivity. Qed.

(** ** The rule-based transformer, line by line *)

Lemma set_iter_singleton `{Externals} (x : str) : set_iter [x] = [x].
Proof. apply Permutation_singleton_r, set_iter_perm. Qed.

Lemma link_token_one_rule `{Externals} (key : str) (forms : list str) (token : str)
    (w : world) :
  forms <> [] -> forallb literal forms = true ->
  Rules.link_token [(key, [alternation forms])] token w
  = (w, Ok match search_literal forms token with
           | Some group => Str.replace group key token
           | None => token
           end).
Proof.
  intros Hne Hlit. unfold Rules.link_token. simpl.
  rewrite set_iter_singleton. simpl. unfold Rules.apply_pattern.
  rewrite re_search_literal by assumption.
  destruct (search_literal forms token); reflexivity.
Qed.

Lemma for_each_world {A S} (body : S -> A -> Py S) (l : list A) :
  (forall state x w, (body state x w).1 = w) ->
  forall state w, (for_each body l state w).1 = w.
Proof.
  intros Hbody. induction l as [|x l IH]; intros state w; [reflexivity|].
  simpl. rewrite bind_run. pose proof (Hbody state x w) as Hw.
  destruct (body state x w) as [w1 [state'|e]]; simpl in Hw; subst w1;
    [apply IH|reflexivity].
Qed.

Lemma link_token_world `{Externals} linked_dict token w :
  (Rules.link_token linked_dict token w).1 = w.
Proof.
  unfold Rules.link_token. apply for_each_world.
  intros state kp w'. apply for_each_world.
  intros mt pattern w''. unfold Rules.apply_pattern.
  destruct (re_search pattern mt); reflexivity.
Qed.

Lemma token_loop_world `{Externals} linked_dict tokens u w :
  (Rules.token_loop linked_dict tokens u w).1 = w.
Proof.
  unfold Rules.token_loop. apply for_each_world.
  intros st token w'. unfold Rules.token_step. rewrite bind_run.
  pose proof (link_token_world linked_dict token w') as Hw.
  destruct (Rules.link_token linked_dict token w') as [w1 [m|e]];
    simpl in Hw; subst w1; reflexivity.
Qed.

(** The loop over the tokens when the table rewrites each of them. *)
Lemma token_loop_from `{Externals} linked_dict (tokens linked acc : list str) u w :
  Forall2 (links_to linked_dict) tokens linked ->
  for_each (Rules.token_step linked_dict) tokens (acc, u) w
  = (w, Ok (acc ++ linked,
            match tokens with
            | [] => u
            | _ :: _ => Some (List.map normalize_accents (acc ++ linked))
            end)).
Proof.
  intros Hlinked. revert acc u.
  induction Hlinked as [|t t' tokens linked Ht Hrest IH]; intros acc u.
  - simpl. rewrite app_nil_r. reflexivity.
  - simpl. rewrite bind_run. unfold Rules.token_step at 1.
    rewrite bind_run, (Ht w). cbn [mret Py_ret fst].
    rewrite IH. rewrite <- app_assoc. simpl.
    destruct Hrest; simpl; rewrite <- ?app_assoc; reflexivity.
Qed.

Lemma token_loop_linked `{Externals} linked_dict (tokens linked : list str) u w :
  Forall2 (links_to linked_dict) tokens linked ->
  Rules.token_loop linked_dict tokens u w
  = (w, Ok (linked,
            match tokens with
            | [] => u
            | _ :: _ => Some (List.map normalize_accents linked)
            end)).
Proof.
  intros Hlinked. unfold Rules.token_loop.
  rewrite (token_loop_from linked_dict tokens linked [] u w Hlinked). reflexivity.
Qed.

(** The loop from its second token on does not look at what
    [unaccented_tokens] held when the line began. *)
Lemma token_loop_fresh `{Externals} linked_dict token tokens u1 u2 w :
  Rules.token_loop linked_dict (token :: tokens) u1 w
  = Rules.token_loop linked_dict (token :: tokens) u2 w.
Proof.
  unfold Rules.token_loop. simpl. rewrite !bind_run.
  assert (Hstep : Rules.token_step linked_dict ([], u1) token w
                  = Rules.token_step linked_dict ([], u2) token w).
  { unfold Rules.token_step. rewrite !bind_run.
    destruct (Rules.link_token linked_dict token w) as [w1 [m|e]]; reflexivity. }
  rewrite Hstep. reflexivity.
Qed.

Lemma token_loop_no_token `{Externals} linked_dict u w :
  Rules.token_loop linked_dict [] u w = (w, Ok ([], u)).
Proof. reflexivity. Qed.

(** A line that gives a token: the joined text is made of the tokens of
    this line, whatever [unaccented_tokens] held before. *)
Lemma rules_joined_text_tokens `{Externals} linked_dict line text token tokens linked u w :
  Str.split SEMI (Str.strip line) !! 1%nat = Some text ->
  tokenise text = token :: tokens ->
  Forall2 (links_to linked_dict) (token :: tokens) linked ->
  Rules.joined_text linked_dict line u w
  = (w, Ok (Str.join (py " ") (List.map normalize_accents linked),
            Some (List.map normalize_accents linked))).
Proof.
  intros Htext Htok Hlinked. unfold Rules.joined_text, index.
  rewrite Htext, bind_run. cbn [mret Py_ret].
  rewrite Htok.
  rewrite (bind_ok _ _ _ _ _
             (token_loop_linked linked_dict (token :: tokens) linked u w Hlinked)).
  reflexivity.
Qed.

(** A line that gives no token: the joined text is made of what
    [unaccented_tokens] held before the line. *)
Lemma rules_joined_text_no_token `{Externals} linked_dict line text u w :
  Str.split SEMI (Str.strip line) !! 1%nat = Some text ->
  tokenise text = [] ->
  Rules.joined_text linked_dict line u w
  = match u with
    | Some tokens => (w, Ok (Str.join (py " ") tokens, u))
    | None => (w, Raise UnboundLocalError)
    end.
Proof.
  intros Htext Htok. unfold Rules.joined_text, index.
  rewrite Htext, bind_run. cbn [mret Py_ret].
  rewrite Htok.
  rewrite (bind_ok _ _ _ _ _ (token_loop_no_token linked_dict u w)).
  destruct u; reflexivity.
Qed.

Lemma rules_joined_text_fresh `{Externals} linked_dict line text token tokens u1 u2 w :
  Str.split SEMI (Str.strip line) !! 1%nat = Some text ->
  tokenise text = token :: tokens ->
  Rules.joined_text linked_dict line u1 w = Rules.joined_text linked_dict line u2 w.
Proof.
  intros Htext Htok. unfold Rules.joined_text, index.
  rewrite Htext, !bind_run. cbn [mret Py_ret].
  rewrite Htok. unfold mbind, Py_bind.
  rewrite (token_loop_fresh linked_dict token tokens u1 u2 w).
  reflexivity.
Qed.

Lemma rules_process_line_fresh `{Externals} linked_dict i line text token tokens u1 u2 w :
  Str.split SEMI (Str.strip line) !! 1%nat = Some text ->
  tokenise text = token :: tokens ->
  Rules.process_line linked_dict i line u1 w
  = Rules.process_line linked_dict i line u2 w.
Proof.
  intros Htext Htok. unfold Rules.process_line.
  rewrite !bind_run.
  rewrite (rules_joined_text_fresh _ _ _ _ _ u1 u2 w Htext Htok).
  reflexivity.
Qed.

(** C6: two corpora whose second lines are the same line, with an empty
    text field. The second row of each run repeats the text of its own
    first line: the rows differ although the lines agree, because
    [unaccented_tokens] is assigned only inside the loop over the tokens and
    keeps the value of the line before. When the first line gives no
    token the name is still unbound and the run ends with
    [UnboundLocalError]. *)
Theorem empty_line_repeats_previous_row :
  morge_files corpus_file_path = Some [corpus_line "001" "Guete Morge"; corpus_line "002" ""]
  /\ bonjour_files corpus_file_path = Some [corpus_line "001" "Bonjour"; corpus_line "002" ""]
  /\ Rules.process_corpus morge_files corpus_file_path [] w0
     = (World [] [header; row 1 "Guete Morge"; row 2 "Guete Morge"], Ok tt)
  /\ Rules.process_corpus bonjour_files corpus_file_path [] w0
     = (World [] [header; row 1 "Bonjour"; row 2 "Bonjour"], Ok tt)
  /\ Rules.process_corpus empty_first_files corpus_file_path [] w0
     = (World [] [header], Raise UnboundLocalError).
Proof. repeat split; vm_compute; reflexivity. Qed.

(** ** The end-to-end scenario *)

Lemma rule_columns_reads `{Externals} (line : str) (r : str * str * Z) (w : world) :
  reads_as line r -> Rules.rule_columns line w = (w, Ok r).
Proof.
  intros (count & more & Hcols & Hint). destruct r as [[link target] n].
  unfold Rules.rule_columns. rewrite Hcols. simpl in *.
  rewrite (bind_ok _ _ w w link) by reflexivity.
  rewrite (bind_ok _ _ w w target) by reflexivity.
  rewrite (bind_ok _ _ w w count) by reflexivity.
  rewrite (bind_ok _ _ w w n) by (unfold int; rewrite Hint; reflexivity).
  reflexivity.
Qed.

(** The rows of a concrete file, for the reference instance. *)
Ltac read_row :=
  unfold reads_as; do 2 eexists; split; [reflexivity|vm_compute; reflexivity].

Ltac read_rows := repeat (constructor 2; [read_row|]); constructor 1.

Lemma frai_rule_reads `{Externals} : reads_as frai_rule (py "frai", py "frei", 15%Z).
Proof.
  exists (py "15"), []. split; [reflexivity|].
  apply (parse_int_decimal (py "15")); [discriminate|reflexivity|simpl; lia].
Qed.

Lemma frai_dictionary `{Externals} fs w :
  fs rules_path = Some [frai_rule] ->
  Rules.create_dictionary fs rules_path w
  = (w, Ok [(py "frei", [alternation [py "frai"]])]).
Proof.
  intros Hfs. unfold Rules.create_dictionary, try_except, open_r.
  rewrite Hfs.
  assert (Hread : Rules.read_rules [frai_rule] [] w = (w, Ok [(py "frei", [py "frai"])])).
  { simpl. rewrite (bind_ok _ _ _ _ _ (rule_columns_reads _ _ w frai_rule_reads)).
    reflexivity. }
  rewrite (bind_ok _ _ w w [frai_rule]) by reflexivity.
  rewrite (bind_ok _ _ _ _ _ Hread).
  cbn [List.map fst snd mret Py_ret]. unfold Rules.pattern_of.
  rewrite set_iter_singleton. reflexivity.
Qed.

(** C3, amended: with the rule file "frai<TAB>frei<TAB>15", the corpus
    line "001;Min Frai isch do;" and the tokens 'Min', 'Frai', 'isch',
    'do', the run writes the header and the row (1, 'Min Frai isch do'):
    the pattern '(frai)' is searched as it is, and 'Frai' does not
    contain 'frai'. *)
Theorem frai_scenario_keeps_capital `{Externals} fs :
  fs rules_path = Some [frai_rule] ->
  fs corpus_file_path = Some [frai_line] ->
  tokenise (py "Min Frai isch do") = [py "Min"; py "Frai"; py "isch"; py "do"] ->
  Rules.main fs rules_path w0
  = (World [] [header; row 1 "Min Frai isch do"], Ok tt).
Proof.
  intros Hrules Hcorpus Htok. unfold Rules.main.
  rewrite (bind_ok _ _ _ _ _ (frai_dictionary fs w0 Hrules)).
  rewrite (rules_process_corpus_run _ _ _ _ _ Hcorpus).
  cbn [Rules.process_lines]. rewrite bind_run. unfold Rules.process_line.
  rewrite bind_run.
  rewrite (rules_joined_text_tokens _ frai_line (py "Min Frai isch do")
             (py "Min") [py "Frai"; py "isch"; py "do"]
             [py "Min"; py "Frai"; py "isch"; py "do"]);
    [reflexivity|reflexivity|exact Htok|].
  repeat constructor; intros w;
    rewrite link_token_one_rule by (discriminate || reflexivity); reflexivity.
Qed.

Lemma frai_scenario_keeps_capital_witness :
  Rules.main frai_files rules_path w0
  = (World [] [header; row 1 "Min Frai isch do"], Ok tt).
Proof.
  apply (frai_scenario_keeps_capital (H := reference) frai_files); reflexivity.
Defined.

(** The row that the scenario of C3 expects is not the row written. *)
Lemma frai_scenario_row_is_not_frei :
  written (Rules.main frai_files rules_path w0) = [header; row 1 "Min Frai isch do"]
  /\ written (Rules.main frai_files rules_path w0) <> [header; row 1 "Min frei isch do"].
Proof.
  assert (Hrun : written (Rules.main frai_files rules_path w0)
                 = [header; row 1 "Min Frai isch do"]) by (vm_compute; reflexivity).
  rewrite Hrun. split; [reflexivity|discriminate].
Qed.

(** The same rule on the token 'frai': the match is replaced. *)
Example frai_rule_on_lower_case `{Externals} (w : world) :
  Rules.link_token [(py "frei", [alternation [py "frai"]])] (py "frai") w
  = (w, Ok (py "frei"))
  /\ Rules.link_token [(py "frei", [alternation [py "frai"]])] (py "Frai") w
     = (w, Ok (py "Frai")).
Proof.
  rewrite !link_token_one_rule by (discriminate || reflexivity).
  split; reflexivity.
Qed.

(** ** The table of a rule file *)

Lemma first_seen_In (l : list str) (y : str) : In y (first_seen l) <-> In y l.
Proof.
  induction l as [|x l IH]; [reflexivity|].
  simpl. rewrite filter_In, IH, negb_true_iff, bool_decide_eq_false.
  destruct (decide (y = x)) as [->|Hne]; [tauto|].
  split; [intros [?|[? _]]; auto|intros [?|?]; [congruence|auto]].
Qed.

Lemma first_seen_NoDup (l : list str) : NoDup (first_seen l).
Proof.
  induction l as [|x l IH]; simpl; constructor.
  - rewrite list_elem_of_In, filter_In, negb_true_iff, bool_decide_eq_false.
    tauto.
  - apply NoDup_ListNoDup, List.NoDup_filter, NoDup_ListNoDup, IH.
Qed.

Lemma first_seen_snoc (l : list str) (x : str) :
  first_seen (l ++ [x])
  = if bool_decide (x ∈ first_seen l) then first_seen l else first_seen l ++ [x].
Proof.
  induction l as [|y l IH]; [reflexivity|].
  simpl. rewrite IH.
  destruct (decide (x = y)) as [->|Hne].
  - rewrite (bool_decide_eq_true_2 (y ∈ y :: _)) by constructor.
    destruct (bool_decide (y ∈ first_seen l)); [reflexivity|].
    rewrite List.filter_app. simpl.
    rewrite bool_decide_eq_true_2 by reflexivity. simpl.
    rewrite app_nil_r. reflexivity.
  - destruct (bool_decide (x ∈ first_seen l)) eqn:Hin.
    + apply bool_decide_eq_true in Hin.
      rewrite bool_decide_eq_true_2; [reflexivity|].
      right. apply list_elem_of_In, filter_In. split.
      * apply list_elem_of_In, Hin.
      * apply negb_true_iff, bool_decide_eq_false. exact Hne.
    + apply bool_decide_eq_false in Hin.
      rewrite bool_decide_eq_false_2.
      * rewrite List.filter_app. simpl.
        rewrite bool_decide_eq_false_2 by exact Hne. reflexivity.
      * intros Hx. apply Hin.
        inversion Hx as [|? ? ? Hx']; subst; [congruence|].
        apply list_elem_of_In, filter_In in Hx' as [Hx' _].
        apply list_elem_of_In, Hx'.
Qed.

Lemma set_add_first_seen (l : list str) (x : str) :
  Rules.set_add x (first_seen l) = first_seen (l ++ [x]).
Proof. rewrite first_seen_snoc. reflexivity. Qed.

Lemma dict_add_absent (f : str -> list str) (keys : list str) (t link : str) :
  ~ In t keys ->
  Rules.dict_add t link (List.map (fun k => (k, f k)) keys)
  = List.map (fun k => (k, f k)) keys ++ [(t, [link])].
Proof.
  induction keys as [|k keys IH]; intros Hin; [reflexivity|].
  simpl. rewrite bool_decide_eq_false_2 by (intros ->; apply Hin; left; reflexivity).
  rewrite IH by (intros ?; apply Hin; right; assumption). reflexivity.
Qed.

Lemma dict_add_present (f : str -> list str) (keys : list str) (t link : str) :
  NoDup keys -> In t keys ->
  Rules.dict_add t link (List.map (fun k => (k, f k)) keys)
  = List.map (fun k => (k, if bool_decide (k = t) then Rules.set_add link (f k) else f k))
      keys.
Proof.
  induction 1 as [|k keys Hk Hnd IH]; intros Hin; [destruct Hin|].
  simpl. destruct (decide (k = t)) as [->|Hne].
  - rewrite !bool_decide_eq_true_2 by reflexivity. f_equal.
    apply map_ext_in. intros k' Hk'.
    rewrite bool_decide_eq_false_2; [reflexivity|].
    intros ->. apply Hk, list_elem_of_In, Hk'.
  - rewrite !bool_decide_eq_false_2 by exact Hne. f_equal.
    apply IH. destruct Hin; [congruence|assumption].
Qed.

Lemma targets_snoc rows (r : str * str * Z) :
  targets (rows ++ [r]) = targets rows ++ (if frequent r then [r.1.2] else []).
Proof.
  unfold targets. rewrite List.filter_app, List.map_app. simpl.
  destruct (frequent r); reflexivity.
Qed.

Lemma links_for_snoc t rows (r : str * str * Z) :
  links_for t (rows ++ [r])
  = links_for t rows
    ++ (if frequent r && bool_decide (r.1.2 = t) then [r.1.1] else []).
Proof.
  unfold links_for. rewrite List.filter_app, List.map_app. simpl.
  destruct (frequent r && bool_decide (r.1.2 = t)); reflexivity.
Qed.

Lemma links_for_no_target t rows : ~ In t (targets rows) -> links_for t rows = [].
Proof.
  unfold targets, links_for. induction rows as [|r rows IH]; intros Hin; [reflexivity|].
  simpl in *. destruct (frequent r); simpl in *.
  - destruct (decide (r.1.2 = t)) as [Heq|Hne]; [tauto|].
    rewrite bool_decide_eq_false_2 by exact Hne. apply IH. tauto.
  - apply IH, Hin.
Qed.

(** The dictionary that the loop over the rows builds is the grouping of
    the rows. *)
Lemma fold_add_row_grouped rows : fold_left add_row rows [] = grouped rows.
Proof.
  induction rows as [|r rows IH] using rev_ind; [reflexivity|].
  rewrite fold_left_app, IH. simpl. unfold add_row, grouped.
  rewrite targets_snoc.
  destruct (frequent r) eqn:Hfreq.
  - rewrite first_seen_snoc.
    destruct (bool_decide (r.1.2 ∈ first_seen (targets rows))) eqn:Hin.
    + apply bool_decide_eq_true, list_elem_of_In in Hin.
      rewrite dict_add_present by (auto using first_seen_NoDup).
      apply map_ext. intros k. rewrite links_for_snoc, Hfreq. simpl.
      destruct (decide (k = r.1.2)) as [->|Hne].
      * rewrite !bool_decide_eq_true_2 by reflexivity.
        apply f_equal, set_add_first_seen.
      * rewrite !bool_decide_eq_false_2 by congruence.
        rewrite app_nil_r. reflexivity.
    + apply bool_decide_eq_false in Hin. rewrite list_elem_of_In in Hin.
      rewrite dict_add_absent by exact Hin.
      rewrite List.map_app. simpl. f_equal.
      * apply map_ext_in. intros k Hk. rewrite links_for_snoc.
        rewrite bool_decide_eq_false_2;
          [|intros Heq; apply Hin; rewrite Heq; exact Hk].
        rewrite andb_false_r, app_nil_r. reflexivity.
      * rewrite links_for_snoc, Hfreq. simpl.
        rewrite bool_decide_eq_true_2 by reflexivity.
        rewrite links_for_no_target; [reflexivity|].
        rewrite <- first_seen_In. exact Hin.
  - rewrite app_nil_r. apply map_ext. intros k.
    rewrite links_for_snoc, Hfreq. simpl. rewrite app_nil_r. reflexivity.
Qed.

Lemma read_rules_rows `{Externals} lines rows dictionary w :
  Forall2 reads_as lines rows ->
  Rules.read_rules lines dictionary w = (w, Ok (fold_left add_row rows dictionary)).
Proof.
  intros Hrows. revert dictionary.
  induction Hrows as [|line r lines rows Hr _ IH]; intros dictionary; [reflexivity|].
  simpl. rewrite (bind_ok _ _ _ _ _ (rule_columns_reads line r w Hr)).
  destruct r as [[link target] n]. apply IH.
Qed.

Lemma table_of_map `{Externals} rows :
  table_of rows
  = List.map (fun t => (t, [alternation (set_iter (first_seen (links_for t rows)))]))
      (first_seen (targets rows)).
Proof. unfold table_of, grouped. rewrite List.map_map. reflexivity. Qed.

Lemma dict_get_map {V} (f : str -> V) (keys : list str) (t : str) :
  In t keys -> dict_get t (List.map (fun k => (k, f k)) keys) = Some (f t).
Proof.
  induction keys as [|k keys IH]; intros Hin; [destruct Hin|].
  simpl. destruct (decide (k = t)) as [->|Hne].
  - rewrite bool_decide_eq_true_2 by reflexivity. reflexivity.
  - rewrite bool_decide_eq_false_2 by exact Hne.
    apply IH. destruct Hin; [congruence|assumption].
Qed.

Lemma create_dictionary_rows `{Externals} fs path lines rows w :
  fs path = Some lines ->
  Forall2 reads_as lines rows ->
  Rules.create_dictionary fs path w = (w, Ok (table_of rows)).
Proof.
  intros Hfs Hrows. unfold Rules.create_dictionary, try_except, open_r.
  rewrite Hfs.
  rewrite (bind_ok _ _ w w lines) by reflexivity.
  rewrite (bind_ok _ _ _ _ _ (read_rules_rows lines rows [] w Hrows)).
  rewrite fold_add_row_grouped. reflexivity.
Qed.

Lemma table_of_rare_row `{Externals} rows1 rows2 (r : str * str * Z) :
  frequent r = false -> table_of (rows1 ++ r :: rows2) = table_of (rows1 ++ rows2).
Proof.
  intros Hr. rewrite !table_of_map.
  assert (Ht : targets (rows1 ++ r :: rows2) = targets (rows1 ++ rows2)).
  { unfold targets. rewrite !List.filter_app. simpl. rewrite Hr. reflexivity. }
  rewrite Ht. apply map_ext. intros t.
  assert (Hl : links_for t (rows1 ++ r :: rows2) = links_for t (rows1 ++ rows2)).
  { unfold links_for. rewrite !List.filter_app. simpl. rewrite Hr. reflexivity. }
  rewrite Hl. reflexivity.
Qed.

(** C4, amended: for a rule file each line of which reads as a row (after
    [strip] and [split] on tabs it has its source form, its target form and
    a third column of which [int] gives the count), the table has one entry
    for each target form of a frequent row, in the order of their first
    such rows, and the pattern of a target form is the alternation of its
    distinct source forms in the order in which the set that holds them is
    iterated: an arrangement of the forms in first-seen order, and that
    order itself when sets are iterated in the order of insertion. *)
Theorem create_dictionary_alternatives `{Externals} fs path lines rows w :
  fs path = Some lines ->
  Forall2 reads_as lines rows ->
  Rules.create_dictionary fs path w = (w, Ok (table_of rows))
  /\ List.map fst (table_of rows) = first_seen (targets rows)
  /\ forall target,
       In target (targets rows) ->
       exists forms,
         dict_get target (table_of rows) = Some [alternation forms]
         /\ forms ≡ₚ first_seen (links_for target rows)
         /\ ((forall l, set_iter l = l) -> forms = first_seen (links_for target rows)).
Proof.
  intros Hfs Hrows. split; [exact (create_dictionary_rows fs path lines rows w Hfs Hrows)|].
  rewrite table_of_map. split.
  - rewrite List.map_map. simpl. apply map_id.
  - intros target Htarget.
    exists (set_iter (first_seen (links_for target rows))). split; [|split].
    + apply (dict_get_map
               (fun t => [alternation (set_iter (first_seen (links_for t rows)))])).
      apply first_seen_In, Htarget.
    + apply set_iter_perm.
    + intros Hid. apply Hid.
Qed.

Lemma create_dictionary_alternatives_witness :
  Rules.create_dictionary ei_files rules_path w0
  = (w0, Ok (table_of [(py "ai", py "ei", 12%Z); (py "ay", py "ei", 30%Z)]))
  /\ List.map fst (table_of [(py "ai", py "ei", 12%Z); (py "ay", py "ei", 30%Z)])
     = first_seen (targets [(py "ai", py "ei", 12%Z); (py "ay", py "ei", 30%Z)])
  /\ forall target,
       In target (targets [(py "ai", py "ei", 12%Z); (py "ay", py "ei", 30%Z)]) ->
       exists forms,
         dict_get target (table_of [(py "ai", py "ei", 12%Z); (py "ay", py "ei", 30%Z)])
         = Some [alternation forms]
         /\ forms ≡ₚ first_seen (links_for target
                                   [(py "ai", py "ei", 12%Z); (py "ay", py "ei", 30%Z)])
         /\ ((forall l, set_iter l = l) ->
             forms = first_seen (links_for target
                                   [(py "ai", py "ei", 12%Z); (py "ay", py "ei", 30%Z)])).
Proof.
  apply (create_dictionary_alternatives (H := reference) ei_files rules_path ei_rules).
  - reflexivity.
  - read_rows.
Defined.

(** The rule file of C4 with sets iterated in the reverse of the insertion
    order: 'ai' is seen before 'ay', and the pattern is '(ay|ai)'. *)
Lemma alternatives_not_in_first_seen_order :
  first_seen (links_for (py "ei") [(py "ai", py "ei", 12%Z); (py "ay", py "ei", 30%Z)])
  = [py "ai"; py "ay"]
  /\ @Rules.create_dictionary reversed_sets ei_files rules_path w0
     = (w0, Ok [(py "ei", [py "(ay|ai)"])])
  /\ @Rules.create_dictionary reversed_sets ei_files rules_path w0
     <> (w0, Ok [(py "ei", [alternation [py "ai"; py "ay"]])]).
Proof.
  split; [reflexivity|].
  assert (Hrun : @Rules.create_dictionary reversed_sets ei_files rules_path w0
                 = (w0, Ok [(py "ei", [py "(ay|ai)"])])) by (vm_compute; reflexivity).
  rewrite Hrun. split; [reflexivity|discriminate].
Qed.

(** C7: for a rule file each line of which reads as a row (after [strip]
    and [split] on tabs it has its source form, its target form and a third
    column of which [int] gives the count), the builder returns a table and
    prints nothing; a row counted at least 10 times has its source form
    among the alternatives of the pattern stored under its target form, and
    a row counted fewer than 10 times adds nothing: the table is the one of
    the file without that row. *)
Theorem frequent_rows_in_table `{Externals} fs path lines rows w :
  fs path = Some lines ->
  Forall2 reads_as lines rows ->
  exists table,
    Rules.create_dictionary fs path w = (w, Ok table)
    /\ forall link target n,
         In (link, target, n) rows ->
         ((10 <= n)%Z ->
          exists forms,
            dict_get target table = Some [alternation forms] /\ In link forms)
         /\ ((n < 10)%Z ->
             forall rows1 rows2 lines' (fs' : filesystem),
               rows = rows1 ++ (link, target, n) :: rows2 ->
               fs' path = Some lines' ->
               Forall2 reads_as lines' (rows1 ++ rows2) ->
               Rules.create_dictionary fs' path w = (w, Ok table)).
Proof.
  intros Hfs Hrows. exists (table_of rows).
  split; [exact (create_dictionary_rows fs path lines rows w Hfs Hrows)|].
  intros link target n Hin. split.
  - intros Hn.
    assert (Hfreq : frequent (link, target, n) = true) by (apply Z.leb_le, Hn).
    exists (set_iter (first_seen (links_for target rows))). split.
    + rewrite table_of_map.
      apply (dict_get_map
               (fun t => [alternation (set_iter (first_seen (links_for t rows)))])).
      apply first_seen_In. unfold targets.
      apply (in_map (fun r : str * str * Z => r.1.2) _ (link, target, n)).
      apply filter_In. split; assumption.
    + apply list_elem_of_In.
      rewrite (set_iter_perm (first_seen (links_for target rows))).
      apply list_elem_of_In, first_seen_In. unfold links_for.
      apply (in_map (fun r : str * str * Z => r.1.1) _ (link, target, n)).
      apply filter_In. split; [assumption|].
      rewrite Hfreq. simpl. apply bool_decide_eq_true_2. reflexivity.
  - intros Hn rows1 rows2 lines' fs' Hsplit Hfs' Hrows'.
    rewrite (create_dictionary_rows fs' path lines' (rows1 ++ rows2) w Hfs' Hrows').
    rewrite Hsplit, table_of_rare_row; [reflexivity|].
    apply Z.leb_gt, Hn.
Qed.

Lemma frequent_rows_in_table_witness :
  exists table,
    Rules.create_dictionary threshold_files rules_path w0 = (w0, Ok table)
    /\ forall link target n,
         In (link, target, n) threshold_rows ->
         ((10 <= n)%Z ->
          exists forms,
            dict_get target table = Some [alternation forms] /\ In link forms)
         /\ ((n < 10)%Z ->
             forall rows1 rows2 lines' (fs' : filesystem),
               threshold_rows = rows1 ++ (link, target, n) :: rows2 ->
               fs' rules_path = Some lines' ->
               Forall2 reads_as lines' (rows1 ++ rows2) ->
               Rules.create_dictionary fs' rules_path w0 = (w0, Ok table)).
Proof.
  apply (frequent_rows_in_table (H := reference) threshold_files rules_path
           threshold_rules threshold_rows w0).
  - reflexivity.
  - read_rows.
Defined.

(** The table of the threshold file: the row counted 9 times is not
    in it, the row counted 10 times is. *)
Example threshold_table :
  Rules.create_dictionary threshold_files rules_path w0
  = (w0, Ok [(py "ei", [py "(ai)"]); (py "u", [py "(uu)"])]).
Proof. vm_compute. reflexivity. Qed.

(** ** The recursion of the reference ratio

    The longest match lies inside the window it was searched in, so each
    recursive call of [matches] gets a shorter window of [a]: fuel equal to
    the length of the window is enough, and more fuel changes nothing. *)

Lemma row_step_bound b ai blo bhi j rest shifted t :
  Forall (fun k => k <= t)%nat shifted ->
  Forall (fun k => k <= S t)%nat (Difflib.row_step b ai blo bhi j rest shifted).
Proof.
  intros Hs. revert j rest.
  induction Hs as [|p shifted Hp _ IH]; intros j [|bj rest]; simpl; try constructor.
  - destruct (_ && _); lia.
  - apply IH.
Qed.

Lemma imap_bound {A} (g : nat -> A) (row : list nat) t :
  Forall (fun k => k <= t)%nat row ->
  Forall (fun jk : A * nat => jk.2 <= t)%nat (imap (fun j k => (g j, k)) row).
Proof.
  intros Hrow. revert g.
  induction Hrow as [|k row Hk _ IH]; intros g; simpl; constructor; [exact Hk|].
  apply (IH (g ∘ S)).
Qed.

Lemma fold_better_window alo ahi i t (l : list (nat * nat)) best :
  (i = alo + t)%nat -> (i < ahi)%nat ->
  Forall (fun jk : nat * nat => jk.2 <= S t)%nat l ->
  in_window alo ahi best ->
  in_window alo ahi (fold_left (Difflib.better i) l best).
Proof.
  intros Hi Hlt Hl. revert best.
  induction Hl as [|[j k] l Hk _ IH]; intros best Hbest; [exact Hbest|].
  simpl. apply IH. destruct (best.2 <? k)%nat; [|exact Hbest].
  unfold in_window. simpl in *. lia.
Qed.

Lemma scan_window a b alo ahi blo bhi n :
  forall i t row best,
    (i = alo + t)%nat -> (i + n <= ahi)%nat ->
    Forall (fun k => k <= t)%nat row ->
    in_window alo ahi best ->
    in_window alo ahi
      (fold_left (Difflib.scan_a a b blo bhi) (seq i n) (row, best)).2.
Proof.
  induction n as [|n IH]; intros i t row best Hi Hn Hrow Hbest; [exact Hbest|].
  simpl. unfold Difflib.scan_a at 2. simpl.
  assert (Hrow' : Forall (fun k => k <= S t)%nat
                    (Difflib.row_step b (nth i a 0) blo bhi 0 b (O :: row))).
  { apply row_step_bound. constructor; [lia|exact Hrow]. }
  apply (IH (S i) (S t)); [lia|lia|exact Hrow'|].
  apply (fold_better_window alo ahi i t); [exact Hi|lia| |exact Hbest].
  apply (imap_bound (fun j => j)), Hrow'.
Qed.

Lemma extend_left_window a b alo ahi blo fuel best :
  in_window alo ahi best -> in_window alo ahi (Difflib.extend_left a b alo blo fuel best).
Proof.
  revert best. induction fuel as [|fuel IH]; intros [[bi bj] bk] Hbest; [exact Hbest|].
  simpl. destruct (_ && _) eqn:Hc; [|exact Hbest].
  apply IH. apply andb_true_iff in Hc as [Hc _]. apply andb_true_iff in Hc as [Hc _].
  apply Nat.ltb_lt in Hc. unfold in_window in *. simpl in *. lia.
Qed.

Lemma extend_right_window a b alo ahi bhi fuel best :
  in_window alo ahi best -> in_window alo ahi (Difflib.extend_right a b ahi bhi fuel best).
Proof.
  revert best. induction fuel as [|fuel IH]; intros [[bi bj] bk] Hbest; [exact Hbest|].
  simpl. destruct (_ && _) eqn:Hc; [|exact Hbest].
  apply IH. apply andb_true_iff in Hc as [Hc _]. apply andb_true_iff in Hc as [Hc _].
  apply Nat.ltb_lt in Hc. unfold in_window in *. simpl in *. lia.
Qed.

Lemma find_longest_match_window a b alo ahi blo bhi :
  (alo <= ahi)%nat ->
  in_window alo ahi (Difflib.find_longest_match a b alo ahi blo bhi).
Proof.
  intros Hle. unfold Difflib.find_longest_match.
  apply extend_right_window, extend_left_window.
  apply (scan_window a b alo ahi blo bhi (ahi - alo) alo 0).
  - lia.
  - lia.
  - apply Forall_forall. intros k Hk. apply list_elem_of_In, repeat_spec in Hk. lia.
  - unfold in_window. simpl. lia.
Qed.

Lemma matches_fuel a b fuel :
  forall alo ahi blo bhi,
    (alo <= ahi)%nat -> (ahi - alo <= fuel)%nat ->
    Difflib.matches (S fuel) a b alo ahi blo bhi
    = Difflib.matches fuel a b alo ahi blo bhi.
Proof.
  induction fuel as [|fuel IH]; intros alo ahi blo bhi Hle Hfuel.
  - pose proof (find_longest_match_window a b alo ahi blo bhi Hle) as Hw.
    simpl. destruct (Difflib.find_longest_match a b alo ahi blo bhi) as [[i j] k].
    unfold in_window in Hw. simpl in Hw.
    destruct k; [reflexivity|lia].
  - pose proof (find_longest_match_window a b alo ahi blo bhi Hle) as Hw.
    change (Difflib.matches (S (S fuel)) a b alo ahi blo bhi)
      with (let '(i, j, k) := Difflib.find_longest_match a b alo ahi blo bhi in
            match k with
            | O => O
            | S _ =>
                (k + (if (alo <? i)%nat && (blo <? j)%nat
                      then Difflib.matches (S fuel) a b alo i blo j else O)
                   + (if (i + k <? ahi)%nat && (j + k <? bhi)%nat
                      then Difflib.matches (S fuel) a b (i + k) ahi (j + k) bhi else O))%nat
            end).
    change (Difflib.matches (S fuel) a b alo ahi blo bhi)
      with (let '(i, j, k) := Difflib.find_longest_match a b alo ahi blo bhi in
            match k with
            | O => O
            | S _ =>
                (k + (if (alo <? i)%nat && (blo <? j)%nat
                      then Difflib.matches fuel a b alo i blo j else O)
                   + (if (i + k <? ahi)%nat && (j + k <? bhi)%nat
                      then Difflib.matches fuel a b (i + k) ahi (j + k) bhi else O))%nat
            end).
    destruct (Difflib.find_longest_match a b alo ahi blo bhi) as [[i j] k].
    unfold in_window in Hw. simpl in Hw.
    destruct k as [|k]; [reflexivity|].
    rewrite (IH alo i blo j) by lia.
    rewrite (IH (i + S k)%nat ahi (j + S k)%nat bhi) by lia.
    reflexivity.
Qed.

(** The fuel that [Difflib.ratio] gives is enough: with any greater fuel
    the sum of the block sizes is the same. *)
Lemma matches_enough_fuel a b extra :
  Difflib.matches (extra + S (length a)) a b 0 (length a) 0 (length b)
  = Difflib.matches (S (length a)) a b 0 (length a) 0 (length b).
Proof.
  induction extra as [|extra IH]; [reflexivity|].
  rewrite <- IH. apply matches_fuel; lia.
Qed.

(** * Further properties *)

(** ** Accent normalisation, character by character *)

Lemma clean_folded (rules : list (list N * str)) (c : N) :
  clean rules c = true <-> c ∉ flat_map fst rules.
Proof.
  induction rules as [|[cls rep] rules IH]; simpl.
  - split; [intros _ Hin; inversion Hin|reflexivity].
  - rewrite andb_true_iff, negb_true_iff, bool_decide_eq_false, IH.
    rewrite elem_of_app. tauto.
Qed.

Lemma re_sub_class_length cls rep s :
  length rep = 1%nat -> length (re_sub_class cls rep s) = length s.
Proof.
  intros Hrep. unfold re_sub_class.
  induction s as [|c s IH]; [reflexivity|].
  simpl. rewrite length_app, IH.
  destruct (bool_decide (c ∈ cls)); [rewrite Hrep|]; reflexivity.
Qed.

Lemma apply_subs_length rules s :
  Forall (fun r : list N * str => length r.2 = 1%nat) rules ->
  length (apply_subs rules s) = length s.
Proof.
  intros Hrules. revert s.
  induction Hrules as [|[cls rep] rules Hrep _ IH]; intros s; [reflexivity|].
  unfold apply_subs in *. simpl. rewrite IH. apply re_sub_class_length, Hrep.
Qed.

(** X1: [normalize_accents] works character by character: the result has
    the length of its argument, and the result on a concatenation is the
    concatenation of the results. *)
Theorem normalize_accents_charwise (s t : str) :
  length (normalize_accents s) = length s
  /\ normalize_accents (s ++ t) = normalize_accents s ++ normalize_accents t.
Proof.
  split.
  - rewrite normalize_accents_subs. apply apply_subs_length. repeat constructor.
  - rewrite (normalize_accents_subs (s ++ t)), (normalize_accents_subs s),
      (normalize_accents_subs t).
    apply apply_subs_app.
Qed.

(** X2: the strings that [normalize_accents] returns unchanged are exactly
    the strings without a folded character; text in ASCII is among them.
    The folded characters are 32 distinct ones: 15 accented lower-case
    vowels, the 15 upper-case ones and the two curved quotes. *)
Theorem normalize_accents_fixed_points (s : str) :
  (normalize_accents s = s <-> Forall (fun c => c ∉ folded) s)
  /\ (Forall (fun c => c < 128) s -> normalize_accents s = s)
  /\ NoDup folded /\ length folded = 32%nat.
Proof.
  assert (Hiff : normalize_accents s = s <-> Forall (fun c => c ∉ folded) s).
  { rewrite normalize_accents_subs. split.
    - intros Hfix.
      pose proof (apply_subs_all_clean accent_rules s eq_refl) as Hclean.
      rewrite Hfix in Hclean.
      eapply Forall_impl; [exact Hclean|].
      intros c Hc. apply clean_folded, Hc.
    - intros Hs. apply apply_subs_clean.
      eapply Forall_impl; [exact Hs|].
      intros c Hc. apply clean_folded, Hc. }
  split; [exact Hiff|].
  split; [|split; [apply (bool_decide_unpack _); vm_compute; exact I|reflexivity]].
  intros Hascii. apply Hiff.
  eapply Forall_impl; [exact Hascii|].
  intros c Hc Hin. unfold folded in Hin. simpl in Hin.
  repeat (apply elem_of_cons in Hin as [->|Hin]; [lia|]).
  inversion Hin.
Qed.

(** X3: the result of [normalize_accents] holds none of the folded
    characters. *)
Theorem normalize_accents_result_unaccented (s : str) :
  Forall (fun c => c ∉ folded) (normalize_accents s).
Proof.
  rewrite normalize_accents_subs.
  eapply Forall_impl; [apply (apply_subs_all_clean accent_rules s eq_refl)|].
  intros c Hc. apply clean_folded, Hc.
Qed.

(** ** The rows of a run *)

Lemma world_eta (w : world) : World (stdout w) (csv w) = w.
Proof. destruct w. reflexivity. Qed.

Lemma trim_world (text : str) (w : world) : (trim_trailing_space text w).1 = w.
Proof.
  unfold trim_trailing_space, index_neg, index. rewrite bind_run.
  destruct (2 <=? length text)%nat; [|reflexivity].
  destruct (text !! (length text - 2)%nat) as [c|]; [|reflexivity].
  cbn [mret Py_ret]. destruct (c =? SPACE); [|reflexivity].
  rewrite bind_run.
  destruct (1 <=? length text)%nat; [|reflexivity].
  destruct (text !! (length text - 1)%nat); reflexivity.
Qed.

Lemma rules_joined_text_world `{Externals} linked_dict line u w :
  (Rules.joined_text linked_dict line u w).1 = w.
Proof.
  unfold Rules.joined_text, index. rewrite bind_run.
  destruct (Str.split SEMI (Str.strip line) !! 1%nat) as [text|]; [|reflexivity].
  cbn [mret Py_ret]. rewrite bind_run.
  pose proof (token_loop_world linked_dict (tokenise text) u w) as Hw.
  destruct (Rules.token_loop linked_dict (tokenise text) u w) as [w1 [st|e]];
    simpl in Hw; subst w1; [|reflexivity].
  destruct st.2; reflexivity.
Qed.

Lemma translate_tokens_world `{Externals} g tokens w :
  (Vocab.translate_tokens g tokens w).1 = w.
Proof.
  induction tokens as [|token tokens IH]; [reflexivity|].
  simpl. rewrite bind_run.
  destruct g as [[|d]|]; try reflexivity.
  cbn [Vocab.translate_token mret Py_ret]. rewrite bind_run.
  destruct (Vocab.translate_tokens (Some (Vocab.VDict d)) tokens w) as [w1 [ts|e]];
    simpl in IH; subst w1; reflexivity.
Qed.

Lemma vocab_joined_text_world `{Externals} g line w :
  (Vocab.joined_text g line w).1 = w.
Proof.
  unfold Vocab.joined_text, index. rewrite bind_run.
  destruct (Str.split SEMI (Str.strip line) !! 1%nat) as [text|]; [|reflexivity].
  cbn [mret Py_ret]. rewrite bind_run.
  pose proof (translate_tokens_world g (tokenise text) w) as Hw.
  destruct (Vocab.translate_tokens g (tokenise text) w) as [w1 [ts|e]];
    simpl in Hw; subst w1; reflexivity.
Qed.

(** A line either ends the run and writes nothing, or writes one row that
    carries its number. *)
Lemma rules_process_line_cases `{Externals} linked_dict i line u w :
  (exists e, Rules.process_line linked_dict i line u w = (w, Raise e))
  \/ (exists text u',
        Rules.process_line linked_dict i line u w
        = (World (stdout w) (csv w ++ [[CInt i; CStr text]]), Ok u')).
Proof.
  unfold Rules.process_line. rewrite bind_run.
  pose proof (rules_joined_text_world linked_dict line u w) as Hw.
  destruct (Rules.joined_text linked_dict line u w) as [w1 [[text u']|e]];
    simpl in Hw; subst w1; [|left; exists e; reflexivity].
  rewrite bind_run.
  pose proof (trim_world text w) as Hw.
  destruct (trim_trailing_space text w) as [w1 [text'|e]];
    simpl in Hw; subst w1; [|left; exists e; reflexivity].
  right. exists text', u'. reflexivity.
Qed.

Lemma vocab_process_line_cases `{Externals} g width i line w :
  (exists e, Vocab.process_line g width i line w = (w, Raise e))
  \/ (exists text,
        Vocab.process_line g width i line w
        = (World (stdout w) (csv w ++ [[CInt i; CStr text]]), Ok tt)).
Proof.
  unfold Vocab.process_line. rewrite bind_run.
  pose proof (vocab_joined_text_world g line w) as Hw.
  destruct (Vocab.joined_text g line w) as [w1 [text|e]];
    simpl in Hw; subst w1; [|left; exists e; reflexivity].
  rewrite bind_run.
  pose proof (trim_world text w) as Hw.
  destruct (trim_trailing_space text w) as [w1 [text'|e]];
    simpl in Hw; subst w1; [|left; exists e; reflexivity].
  right. exists (fill text' width). reflexivity.
Qed.

Lemma rules_process_lines_numbered `{Externals} linked_dict lines :
  forall i u w w' (r : res unit),
    Rules.process_lines linked_dict i lines u w = (w', r) ->
    exists texts,
      w' = World (stdout w) (csv w ++ numbered i texts)
      /\ match r with
         | Ok _ => length texts = length lines
         | Raise _ => (length texts < length lines)%nat
         end.
Proof.
  induction lines as [|line lines IH]; intros i u w w' r Hrun.
  - injection Hrun as <- <-. exists []. simpl.
    rewrite app_nil_r, world_eta. split; reflexivity.
  - simpl in Hrun. rewrite bind_run in Hrun.
    destruct (rules_process_line_cases linked_dict i line u w)
      as [[e He]|(text & u' & Hok)].
    + rewrite He in Hrun. injection Hrun as <- <-. exists []. simpl.
      rewrite app_nil_r, world_eta. split; [reflexivity|lia].
    + rewrite Hok in Hrun. apply IH in Hrun as (texts & -> & Hlen).
      exists (text :: texts). simpl. rewrite <- app_assoc. simpl.
      split; [reflexivity|]. destruct r; lia.
Qed.

Lemma vocab_process_lines_numbered `{Externals} g width lines :
  forall i w w' (r : res unit),
    Vocab.process_lines g width i lines w = (w', r) ->
    exists texts,
      w' = World (stdout w) (csv w ++ numbered i texts)
      /\ match r with
         | Ok _ => length texts = length lines
         | Raise _ => (length texts < length lines)%nat
         end.
Proof.
  induction lines as [|line lines IH]; intros i w w' r Hrun.
  - injection Hrun as <- <-. exists []. simpl.
    rewrite app_nil_r, world_eta. split; reflexivity.
  - simpl in Hrun. rewrite bind_run in Hrun.
    destruct (vocab_process_line_cases g width i line w) as [[e He]|(text & Hok)].
    + rewrite He in Hrun. injection Hrun as <- <-. exists []. simpl.
      rewrite app_nil_r, world_eta. split; [reflexivity|lia].
    + rewrite Hok in Hrun. apply IH in Hrun as (texts & -> & Hlen).
      exists (text :: texts). simpl. rewrite <- app_assoc. simpl.
      split; [reflexivity|]. destruct r; lia.
Qed.

(** X4: whatever the corpus and the table, the output file of the
    rule-based [process_corpus] is the header followed by rows numbered 1,
    2, ... in order, and nothing is printed. A run that ends normally has
    written one row for every line of the corpus; a run that ends with an
    exception has written the rows of the lines before the one that
    raised, and fewer rows than lines. *)
Theorem rules_rows_numbered `{Externals} fs path linked_dict lines w w' (r : res unit) :
  fs path = Some lines ->
  Rules.process_corpus fs path linked_dict w = (w', r) ->
  exists texts,
    w' = World (stdout w) (header :: numbered 1 texts)
    /\ match r with
       | Ok _ => length texts = length lines
       | Raise _ => (length texts < length lines)%nat
       end.
Proof.
  intros Hfs Hrun. rewrite (rules_process_corpus_run _ _ _ _ _ Hfs) in Hrun.
  apply rules_process_lines_numbered in Hrun as (texts & -> & Hlen).
  exists texts. split; [reflexivity|exact Hlen].
Qed.

Lemma rules_rows_numbered_witness :
  exists texts,
    World [] [header; row 1 "Guete Morge"; row 2 "Guete Morge"]
    = World (stdout w0) (header :: numbered 1 texts)
    /\ length texts = length [corpus_line "001" "Guete Morge"; corpus_line "002" ""].
Proof.
  apply (rules_rows_numbered (H := reference) morge_files corpus_file_path []
           [corpus_line "001" "Guete Morge"; corpus_line "002" ""] w0
           (World [] [header; row 1 "Guete Morge"; row 2 "Guete Morge"]) (Ok tt)).
  - reflexivity.
  - vm_compute. reflexivity.
Defined.

(** X5: the same for the vocabulary-based [process_corpus], whatever is
    bound to [vocab_language]: the header, then rows numbered from 1, one
    for every line when the run ends normally and fewer when it raises. *)
Theorem vocab_rows_numbered `{Externals} g fs path v width lines w w' (r : res unit) :
  fs path = Some lines ->
  Vocab.process_corpus g fs path v width w = (w', r) ->
  exists texts,
    w' = World (stdout w) (header :: numbered 1 texts)
    /\ match r with
       | Ok _ => length texts = length lines
       | Raise _ => (length texts < length lines)%nat
       end.
Proof.
  intros Hfs Hrun. rewrite (vocab_process_corpus_run _ _ _ _ _ _ _ Hfs) in Hrun.
  apply vocab_process_lines_numbered in Hrun as (texts & -> & Hlen).
  exists texts. split; [reflexivity|exact Hlen].
Qed.

Lemma vocab_rows_numbered_witness :
  exists texts,
    World [Vocab.unsupported_message] [header]
    = World (stdout (World [Vocab.unsupported_message] [])) (header :: numbered 1 texts)
    /\ (length texts < length [corpus_line "001" "Min Frai isch do"])%nat.
Proof.
  apply (vocab_rows_numbered (H := reference) (Some Vocab.VNone) one_word_files
           corpus_file_path Vocab.VNone 50 [corpus_line "001" "Min Frai isch do"]
           (World [Vocab.unsupported_message] [])
           (World [Vocab.unsupported_message] [header]) (Raise AttributeError)).
  - reflexivity.
  - vm_compute. reflexivity.
Defined.

(** ** Corpus lines without a text field, and a missing corpus *)

Lemma lstrip_In (s : str) (c : N) : In c (Str.lstrip s) -> In c s.
Proof.
  induction s as [|x s IH]; [intros []|].
  simpl. destruct (Str.isspace x); [intros Hin; right; apply IH, Hin|exact id].
Qed.

Lemma strip_In (s : str) (c : N) : In c (Str.strip s) -> In c s.
Proof.
  unfold Str.strip, Str.rstrip. intros Hin.
  apply in_rev, lstrip_In, in_rev in Hin. apply lstrip_In, Hin.
Qed.

Lemma columns_without_semicolon (line : str) :
  SEMI ∉ line -> Str.split SEMI (Str.strip line) !! 1%nat = None.
Proof.
  intros Hline. rewrite split_without_sep; [reflexivity|].
  intros Hin. apply Hline, list_elem_of_In, strip_In, list_elem_of_In, Hin.
Qed.

(** X6: a corpus line without a semicolon has no text field: in both
    transformers the read of [columns[1]] raises [IndexError], the line
    and the lines after it write no row, and the run ends with that
    exception. *)
Theorem corpus_line_without_semicolon `{Externals} (line : str) :
  SEMI ∉ line ->
  (forall linked_dict i rest u w,
     Rules.process_lines linked_dict i (line :: rest) u w = (w, Raise IndexError))
  /\ (forall g width i rest w,
        Vocab.process_lines g width i (line :: rest) w = (w, Raise IndexError)).
Proof.
  intros Hline. pose proof (columns_without_semicolon line Hline) as Hcol. split.
  - intros linked_dict i rest u w. simpl. apply bind_raise.
    unfold Rules.process_line. apply bind_raise.
    unfold Rules.joined_text, index. rewrite Hcol. reflexivity.
  - intros g width i rest w. simpl. apply bind_raise.
    unfold Vocab.process_line. apply bind_raise.
    unfold Vocab.joined_text, index. rewrite Hcol. reflexivity.
Qed.

Lemma corpus_line_without_semicolon_witness :
  (forall linked_dict i rest u w,
     Rules.process_lines linked_dict i (py "Min Frai isch do" :: rest) u w
     = (w, Raise IndexError))
  /\ (forall g width i rest w,
        Vocab.process_lines g width i (py "Min Frai isch do" :: rest) w
        = (w, Raise IndexError)).
Proof.
  apply (corpus_line_without_semicolon (H := reference) (py "Min Frai isch do")).
  vm_compute. intros Hin.
  repeat (apply elem_of_cons in Hin as [Heq|Hin]; [discriminate Heq|]).
  inversion Hin.
Defined.

(** X7: when the corpus file does not exist, both transformers have
    already emptied the output file and written the header; the run then
    ends with [FileNotFoundError], also in the rule-based program, whose
    handler covers the rule file only: with both files missing it prints
    the message for the rule file and then raises for the corpus. *)
Theorem missing_corpus_leaves_header `{Externals} (fs : filesystem) (path : str) :
  fs path = None ->
  (forall linked_dict w,
     Rules.process_corpus fs path linked_dict w
     = (World (stdout w) [header], Raise FileNotFoundError))
  /\ (forall g v width w,
        Vocab.process_corpus g fs path v width w
        = (World (stdout w) [header], Raise FileNotFoundError))
  /\ (path = corpus_file_path ->
      forall rules w,
        fs rules = None ->
        Rules.main fs rules w
        = (World (stdout w ++ [py "File '" ++ rules ++ py "' not found."]) [header],
           Raise FileNotFoundError)).
Proof.
  intros Hfs. split; [|split].
  - intros linked_dict w. unfold Rules.process_corpus, open_r. rewrite Hfs. reflexivity.
  - intros g v width w. unfold Vocab.process_corpus, open_r. rewrite Hfs. reflexivity.
  - intros -> rules w Hrules. unfold Rules.main.
    rewrite (bind_ok _ _ _ _ _ (create_dictionary_missing_file fs rules w Hrules)).
    unfold Rules.process_corpus, open_r. rewrite Hfs. reflexivity.
Qed.

Lemma missing_corpus_leaves_header_witness :
  (forall linked_dict w,
     Rules.process_corpus (files []) corpus_file_path linked_dict w
     = (World (stdout w) [header], Raise FileNotFoundError))
  /\ (forall g v width w,
        Vocab.process_corpus g (files []) corpus_file_path v width w
        = (World (stdout w) [header], Raise FileNotFoundError))
  /\ (corpus_file_path = corpus_file_path ->
      forall rules w,
        files [] rules = None ->
        Rules.main (files []) rules w
        = (World (stdout w ++ [py "File '" ++ rules ++ py "' not found."]) [header],
           Raise FileNotFoundError)).
Proof.
  apply (missing_corpus_leaves_header (H := reference) (files []) corpus_file_path).
  reflexivity.
Defined.

(** ** What the vocabulary-based transformer emits *)

Lemma translate_tokens_dict `{Externals} (d : gmap str (str * str)) tokens w :
  Vocab.translate_tokens (Some (Vocab.VDict d)) tokens w
  = (w, Ok (List.map (fun token => match d !! lower token with
                                   | Some entry => inl entry
                                   | None => inr token
                                   end) tokens)).
Proof.
  induction tokens as [|token tokens IH]; [reflexivity|].
  simpl. rewrite bind_run. cbn [mret Py_ret]. rewrite bind_run, IH. reflexivity.
Qed.

Lemma unaccent_translated `{Externals} (d : gmap str (str * str)) tokens :
  Vocab.unaccent tokens
    (List.map (fun token => match d !! lower token with
                            | Some entry => inl entry
                            | None => inr token
                            end) tokens)
  = List.map (translated d) tokens.
Proof.
  unfold Vocab.unaccent, translated.
  induction tokens as [|token tokens IH]; [reflexivity|].
  simpl. rewrite <- IH. destruct (d !! lower token); reflexivity.
Qed.

(** X8: with a dictionary bound to [vocab_language], the joined text of a
    line is made, token by token, of the translation stored under the
    lower-cased token, written as it is stored, or, when there is none, of
    the accent-normalised token in its own case. *)
Theorem vocab_joined_text_translated `{Externals} (d : gmap str (str * str))
    (line text : str) (w : world) :
  Str.split SEMI (Str.strip line) !! 1%nat = Some text ->
  Vocab.joined_text (Some (Vocab.VDict d)) line w
  = (w, Ok (Str.join (py " ") (List.map (translated d) (tokenise text))))
  /\ forall token,
       (forall entry, d !! lower token = Some entry -> translated d token = entry.1)
       /\ (d !! lower token = None -> translated d token = normalize_accents token).
Proof.
  intros Htext. split.
  - unfold Vocab.joined_text, index. rewrite Htext.
    rewrite bind_run. cbn [mret Py_ret].
    rewrite (bind_ok _ _ _ _ _ (translate_tokens_dict d (tokenise text) w)).
    rewrite unaccent_translated. reflexivity.
  - intros token. unfold translated. split.
    + intros entry ->. reflexivity.
    + intros ->. reflexivity.
Qed.

Lemma vocab_joined_text_translated_witness :
  Vocab.joined_text (Some (Vocab.VDict {[ py "frai" := ([102; 114; 224; 105], py "ADJ") ]}))
                    (corpus_line "001" "Min Frai isch do") w0
  = (w0, Ok (Str.join (py " ")
               (List.map (translated {[ py "frai" := ([102; 114; 224; 105], py "ADJ") ]})
                         (tokenise (py "Min Frai isch do")))))
  /\ forall token,
       (forall entry,
          ({[ py "frai" := ([102; 114; 224; 105], py "ADJ") ]} : gmap str (str * str))
            !! lower token = Some entry ->
          translated {[ py "frai" := ([102; 114; 224; 105], py "ADJ") ]} token = entry.1)
       /\ (({[ py "frai" := ([102; 114; 224; 105], py "ADJ") ]} : gmap str (str * str))
             !! lower token = None ->
           translated {[ py "frai" := ([102; 114; 224; 105], py "ADJ") ]} token
           = normalize_accents token).
Proof.
  apply (vocab_joined_text_translated (H := reference)
           {[ py "frai" := ([102; 114; 224; 105], py "ADJ") ]}
           (corpus_line "001" "Min Frai isch do") (py "Min Frai isch do") w0).
  reflexivity.
Defined.

(** A stored translation is written with its accents: the entry 'frài'
    for 'frai' is emitted for the token 'Frai'. *)
Example stored_translation_keeps_accents :
  Vocab.joined_text (Some (Vocab.VDict {[ py "frai" := ([102; 114; 224; 105], py "ADJ") ]}))
                    (corpus_line "001" "Min Frai isch do") w0
  = (w0, Ok (py "Min fr" ++ [224] ++ py "i isch do")).
Proof. vm_compute. reflexivity. Qed.

(** ** The trim after the join *)

Lemma trim_app_space (x : str) (c : N) (w : world) :
  trim_trailing_space (x ++ [SPACE; c]) w = (w, Ok (x ++ [c])).
Proof.
  rewrite (trim_space (x ++ [SPACE; c]) c w).
  - rewrite length_app. simpl.
    replace (length x + 2 - 2)%nat with (length x + 0)%nat by lia.
    rewrite take_app_add. simpl. rewrite app_nil_r. reflexivity.
  - rewrite length_app. simpl. lia.
  - rewrite length_app. simpl.
    replace (length x + 2 - 2)%nat with (length x + 0)%nat by lia.
    rewrite lookup_app_r by lia.
    replace (length x + 0 - length x)%nat with 0%nat by lia. reflexivity.
  - rewrite length_app. simpl.
    replace (length x + 2 - 1)%nat with (length x + 1)%nat by lia.
    rewrite lookup_app_r by lia.
    replace (length x + 1 - length x)%nat with 1%nat by lia. reflexivity.
Qed.

Lemma trim_app_other (x : str) (d c : N) (w : world) :
  d <> SPACE -> trim_trailing_space (x ++ [d; c]) w = (w, Ok (x ++ [d; c])).
Proof.
  intros Hd. apply (trim_no_space _ d).
  - rewrite length_app. simpl. lia.
  - rewrite length_app. simpl.
    replace (length x + 2 - 2)%nat with (length x + 0)%nat by lia.
    rewrite lookup_app_r by lia.
    replace (length x + 0 - length x)%nat with 0%nat by lia. reflexivity.
  - exact Hd.
Qed.

Lemma join_snoc (sep : str) (pre : list str) (last : str) :
  pre <> [] -> Str.join sep (pre ++ [last]) = Str.join sep pre ++ sep ++ last.
Proof.
  induction pre as [|x pre IH]; intros Hne; [congruence|].
  destruct pre as [|y pre]; [reflexivity|].
  change (Str.join sep ((x :: y :: pre) ++ [last]))
    with (x ++ sep ++ Str.join sep ((y :: pre) ++ [last])).
  rewrite IH by discriminate.
  change (Str.join sep (x :: y :: pre)) with (x ++ sep ++ Str.join sep (y :: pre)).
  rewrite <- !app_assoc. reflexivity.
Qed.

(** X9: what the trim does to a joined text, by its last token. A last
    token of one character that follows other tokens is attached to the
    text before it: the space in front of it is removed. A last token that
    ends with two characters the first of which is not a space leaves the
    joined text as it is. *)
Theorem trim_by_last_token (pre : list str) (w : world) :
  (forall c,
     pre <> [] ->
     trim_trailing_space (Str.join (py " ") (pre ++ [[c]])) w
     = (w, Ok (Str.join (py " ") pre ++ [c])))
  /\ (forall last d c,
        d <> SPACE ->
        trim_trailing_space (Str.join (py " ") (pre ++ [last ++ [d; c]])) w
        = (w, Ok (Str.join (py " ") (pre ++ [last ++ [d; c]])))).
Proof.
  split.
  - intros c Hne. rewrite join_snoc by exact Hne.
    change (py " " ++ [c]) with [SPACE; c]. apply trim_app_space.
  - intros last d c Hd. destruct pre as [|x pre'].
    + simpl. apply trim_app_other, Hd.
    + rewrite join_snoc by discriminate.
      rewrite !app_assoc. apply trim_app_other, Hd.
Qed.

(** ** The rows of the vocabulary file *)

Lemma split_not_nil (sep : N) (s : str) : Str.split sep s <> [].
Proof.
  destruct s as [|c s]; [discriminate|].
  simpl. destruct (c =? sep); [discriminate|].
  destruct (Str.split sep s); discriminate.
Qed.

Lemma store_words_run `{Externals} columns pos tab words vocab w :
  columns !! 1%nat = Some pos -> tab <> [] ->
  Vocab.store_words columns tab words vocab w
  = (w, Ok (row_update pos tab words vocab)).
Proof.
  intros Hpos Htab. revert vocab.
  induction words as [|aw words IH]; intros vocab; [reflexivity|].
  simpl. rewrite bind_run. unfold Vocab.choose_translation.
  destruct tab as [|t tab]; [congruence|].
  cbn [length Nat.ltb Nat.leb mret Py_ret].
  rewrite bind_run. unfold index at 1. rewrite Hpos. cbn [mret Py_ret].
  apply IH.
Qed.

Lemma store_words_no_pos `{Externals} columns tab words vocab w :
  columns !! 1%nat = None -> tab <> [] -> words <> [] ->
  Vocab.store_words columns tab words vocab w = (w, Raise IndexError).
Proof.
  intros Hpos Htab Hwords. destruct words as [|aw words]; [congruence|].
  simpl. rewrite bind_run. unfold Vocab.choose_translation.
  destruct tab as [|t tab]; [congruence|].
  cbn [length Nat.ltb Nat.leb mret Py_ret].
  rewrite bind_run. unfold index. rewrite Hpos. reflexivity.
Qed.

Lemma translations_of_supported `{Externals} language col columns w :
  supported language col ->
  Vocab.translations_of language columns w
  = match columns !! col with
    | Some t => (w, Ok (Some t))
    | None => (w, Raise IndexError)
    end.
Proof.
  intros [[-> ->]|[-> ->]]; unfold Vocab.translations_of; simpl;
    rewrite bind_run; unfold index;
    match goal with |- context [?l !! ?i] => destruct (l !! i) end; reflexivity.
Qed.

(** One line of the file, for a supported language. *)
Lemma read_vocabulary_step `{Externals} language col line rest vocab w :
  supported language col ->
  Vocab.read_vocabulary language (line :: rest) vocab w
  = let columns := Str.split TAB (Str.strip line) in
    match columns !! 2%nat, columns !! col, columns !! 1%nat with
    | Some c2, Some translations, Some pos =>
        Vocab.read_vocabulary language rest
          (row_update pos (Str.split SEMI translations) (Str.split SEMI c2) vocab) w
    | _, _, _ => (w, Raise IndexError)
    end.
Proof.
  intros Hsup. cbn [Vocab.read_vocabulary]. cbv zeta.
  set (columns := Str.split TAB (Str.strip line)).
  rewrite bind_run. unfold index at 1.
  destruct (columns !! 2%nat) as [c2|]; [|reflexivity].
  cbn [mret Py_ret]. rewrite bind_run.
  rewrite (translations_of_supported language col columns w Hsup).
  destruct (columns !! col) as [translations|]; [|reflexivity].
  rewrite bind_run.
  destruct (columns !! 1%nat) as [pos|] eqn:Hpos.
  - rewrite (store_words_run columns pos) by (exact Hpos || apply split_not_nil).
    reflexivity.
  - rewrite store_words_no_pos by (exact Hpos || apply split_not_nil).
    reflexivity.
Qed.

Lemma row_update_lookup `{Externals} pos tab words vocab (k : str) :
  row_update pos tab words vocab !! k
  = if bool_decide (k ∈ words) then Some ((Vocab.most_similar k tab).2, pos)
    else vocab !! k.
Proof.
  unfold row_update. revert vocab.
  induction words as [|aw words IH]; intros vocab; [reflexivity|].
  simpl. rewrite IH.
  destruct (bool_decide (k ∈ words)) eqn:Hin.
  - apply bool_decide_eq_true in Hin.
    rewrite bool_decide_eq_true_2 by (right; exact Hin). reflexivity.
  - apply bool_decide_eq_false in Hin.
    destruct (decide (k = aw)) as [->|Hne].
    + rewrite bool_decide_eq_true_2 by left. apply lookup_insert_eq.
    + rewrite bool_decide_eq_false_2
        by (intros Hk; apply elem_of_cons in Hk as [?|?]; contradiction).
      apply lookup_insert_ne. congruence.
Qed.

(** X10: a vocabulary line read for a supported language ('de': column 3,
    'ltz': column 0) stores, for each of its alsatian words, the pair of
    the translation chosen among the candidates of that column and of the
    tag of column 1; the entries of all other words stay as they were,
    nothing is printed, and the reading goes on with the next line. *)
Theorem vocabulary_row_entries `{Externals} language col line rest vocab w
    (pos c2 translations : str) :
  supported language col ->
  Str.split TAB (Str.strip line) !! 1%nat = Some pos ->
  Str.split TAB (Str.strip line) !! 2%nat = Some c2 ->
  Str.split TAB (Str.strip line) !! col = Some translations ->
  exists vocab',
    Vocab.read_vocabulary language (line :: rest) vocab w
    = Vocab.read_vocabulary language rest vocab' w
    /\ forall aw,
         vocab' !! aw
         = if bool_decide (aw ∈ Str.split SEMI c2)
           then Some ((Vocab.most_similar aw (Str.split SEMI translations)).2, pos)
           else vocab !! aw.
Proof.
  intros Hsup Hpos Hc2 Htr.
  exists (row_update pos (Str.split SEMI translations) (Str.split SEMI c2) vocab).
  split.
  - rewrite (read_vocabulary_step language col) by exact Hsup.
    cbv zeta. rewrite Hc2, Htr, Hpos. reflexivity.
  - intros aw. apply row_update_lookup.
Qed.

Lemma vocabulary_row_entries_witness :
  exists vocab',
    Vocab.read_vocabulary (py "de")
      [tsv [py "Aarbecht"; py "N"; py "arwet;arbet"; py "Arbeit;Werk"]] ∅ w0
    = Vocab.read_vocabulary (py "de") [] vocab' w0
    /\ forall aw,
         vocab' !! aw
         = if bool_decide (aw ∈ Str.split SEMI (py "arwet;arbet"))
           then Some ((Vocab.most_similar aw (Str.split SEMI (py "Arbeit;Werk"))).2, py "N")
           else (∅ : gmap str (str * str)) !! aw.
Proof.
  apply (vocabulary_row_entries (H := reference) (py "de") 3%nat
           (tsv [py "Aarbecht"; py "N"; py "arwet;arbet"; py "Arbeit;Werk"]) [] ∅ w0
           (py "N") (py "arwet;arbet") (py "Arbeit;Werk")).
  - left. split; reflexivity.
  - reflexivity.
  - reflexivity.
  - reflexivity.
Defined.

Lemma read_vocabulary_supported `{Externals} language col lines :
  supported language col ->
  forall vocab w w' r,
    Vocab.read_vocabulary language lines vocab w = (w', r) ->
    w' = w /\ ((exists d, r = Ok (Vocab.VDict d)) \/ r = Raise IndexError).
Proof.
  intros Hsup. induction lines as [|line lines IH]; intros vocab w w' r Hrun.
  - injection Hrun as <- <-. split; [reflexivity|left; eauto].
  - rewrite (read_vocabulary_step language col) in Hrun by exact Hsup.
    cbv zeta in Hrun.
    destruct (Str.split TAB (Str.strip line) !! 2%nat);
      [|injection Hrun as <- <-; auto].
    destruct (Str.split TAB (Str.strip line) !! col);
      [|injection Hrun as <- <-; auto].
    destruct (Str.split TAB (Str.strip line) !! 1%nat);
      [|injection Hrun as <- <-; auto].
    eapply IH, Hrun.
Qed.

(** X11: for a supported language [create_vocabulary] prints nothing and
    never returns [None]: it returns a dictionary, or it raises
    [IndexError] (a line without the columns it reads) or
    [FileNotFoundError] (no file). *)
Theorem supported_language_builds_dictionary `{Externals} fs path language col w w' r :
  supported language col ->
  Vocab.create_vocabulary fs path language w = (w', r) ->
  w' = w
  /\ ((exists d, r = Ok (Vocab.VDict d))
      \/ r = Raise IndexError \/ r = Raise FileNotFoundError).
Proof.
  intros Hsup Hrun. unfold Vocab.create_vocabulary, open_r in Hrun.
  destruct (fs path) as [lines|].
  - rewrite (bind_ok _ _ w w lines) in Hrun by reflexivity.
    apply (read_vocabulary_supported language col lines Hsup) in Hrun as [-> Hr].
    split; [reflexivity|]. destruct Hr; auto.
  - injection Hrun as <- <-. auto.
Qed.

Lemma supported_language_builds_dictionary_witness :
  w0 = w0
  /\ ((exists d, Ok (Vocab.VDict {[ py "Ross" := ([], py "N") ]}) = Ok (Vocab.VDict d))
      \/ Ok (Vocab.VDict {[ py "Ross" := ([], py "N") ]}) = Raise IndexError
      \/ Ok (Vocab.VDict {[ py "Ross" := ([], py "N") ]}) = Raise FileNotFoundError).
Proof.
  apply (supported_language_builds_dictionary (H := reference) ross_files
           vocabulary_path (py "de") 3%nat w0 w0
           (Ok (Vocab.VDict {[ py "Ross" := ([], py "N") ]}))).
  - left. split; reflexivity.
  - vm_compute. reflexivity.
Defined.

Lemma read_vocabulary_app `{Externals} language l1 l2 :
  forall vocab w w1 v1,
    Vocab.read_vocabulary language l1 vocab w = (w1, Ok (Vocab.VDict v1)) ->
    Vocab.read_vocabulary language (l1 ++ l2) vocab w
    = Vocab.read_vocabulary language l2 v1 w1.
Proof.
  induction l1 as [|line l1 IH]; intros vocab w w1 v1 Hrun.
  - injection Hrun as <- <-. reflexivity.
  - cbn [app Vocab.read_vocabulary] in *. cbv zeta in *.
    rewrite bind_run in *.
    destruct (index (Str.split TAB (Str.strip line)) 2 w) as [wa [c2|e]];
      [|discriminate].
    rewrite bind_run in *.
    destruct (Vocab.translations_of language (Str.split TAB (Str.strip line)) wa)
      as [wb [[translations|]|e]]; try discriminate.
    rewrite bind_run in *.
    destruct (Vocab.store_words (Str.split TAB (Str.strip line))
                (Str.split SEMI translations) (Str.split SEMI c2) vocab wb)
      as [wc [v|e]]; [|discriminate].
    apply IH, Hrun.
Qed.

Lemma read_vocabulary_app_inv `{Externals} language col l1 l2 :
  supported language col ->
  forall vocab w w' d,
    Vocab.read_vocabulary language (l1 ++ l2) vocab w = (w', Ok (Vocab.VDict d)) ->
    exists v1,
      Vocab.read_vocabulary language l1 vocab w = (w, Ok (Vocab.VDict v1))
      /\ Vocab.read_vocabulary language l2 v1 w = (w', Ok (Vocab.VDict d)).
Proof.
  intros Hsup. induction l1 as [|line l1 IH]; intros vocab w w' d Hrun.
  - exists vocab. split; [reflexivity|exact Hrun].
  - cbn [app] in Hrun.
    rewrite (read_vocabulary_step language col) in Hrun by exact Hsup.
    rewrite (read_vocabulary_step language col) by exact Hsup.
    cbv zeta in *.
    destruct (Str.split TAB (Str.strip line) !! 2%nat); [|discriminate].
    destruct (Str.split TAB (Str.strip line) !! col); [|discriminate].
    destruct (Str.split TAB (Str.strip line) !! 1%nat); [|discriminate].
    apply IH, Hrun.
Qed.

Lemma read_vocabulary_untouched `{Externals} language col lines (aw : str) :
  supported language col ->
  Forall (fun l => aw ∉ alsatian_words_of l) lines ->
  forall vocab w w' d,
    Vocab.read_vocabulary language lines vocab w = (w', Ok (Vocab.VDict d)) ->
    d !! aw = vocab !! aw.
Proof.
  intros Hsup Hlines.
  induction Hlines as [|line lines Hline _ IH]; intros vocab w w' d Hrun.
  - injection Hrun as <- <-. reflexivity.
  - rewrite (read_vocabulary_step language col) in Hrun by exact Hsup.
    cbv zeta in Hrun. unfold alsatian_words_of in Hline.
    destruct (Str.split TAB (Str.strip line) !! 2%nat) as [c2|]; [|discriminate].
    destruct (Str.split TAB (Str.strip line) !! col) as [tr|]; [|discriminate].
    destruct (Str.split TAB (Str.strip line) !! 1%nat) as [pos|]; [|discriminate].
    rewrite (IH _ _ _ _ Hrun), row_update_lookup.
    rewrite bool_decide_eq_false_2 by exact Hline. reflexivity.
Qed.

(** X12: the last line that lists an alsatian word decides its entry. If
    the builder returns a dictionary for a supported language, a word of a
    line that no later line lists is stored with the translation chosen
    among the candidates of that line and with the tag of that line,
    whatever the earlier lines stored for it. *)
Theorem last_row_wins `{Externals} fs path language col l1 line l2 w w' d
    (pos c2 translations aw : str) :
  supported language col ->
  fs path = Some (l1 ++ line :: l2) ->
  Vocab.create_vocabulary fs path language w = (w', Ok (Vocab.VDict d)) ->
  Str.split TAB (Str.strip line) !! 1%nat = Some pos ->
  Str.split TAB (Str.strip line) !! 2%nat = Some c2 ->
  Str.split TAB (Str.strip line) !! col = Some translations ->
  aw ∈ Str.split SEMI c2 ->
  Forall (fun l => aw ∉ alsatian_words_of l) l2 ->
  d !! aw = Some ((Vocab.most_similar aw (Str.split SEMI translations)).2, pos).
Proof.
  intros Hsup Hfs Hrun Hpos Hc2 Htr Haw Hl2.
  unfold Vocab.create_vocabulary, open_r in Hrun. rewrite Hfs in Hrun.
  rewrite (bind_ok _ _ w w (l1 ++ line :: l2)) in Hrun by reflexivity.
  apply (read_vocabulary_app_inv language col l1 (line :: l2) Hsup)
    in Hrun as (v1 & _ & Hrun).
  rewrite (read_vocabulary_step language col) in Hrun by exact Hsup.
  cbv zeta in Hrun. rewrite Hc2, Htr, Hpos in Hrun.
  rewrite (read_vocabulary_untouched language col l2 aw Hsup Hl2 _ _ _ _ Hrun).
  rewrite row_update_lookup, bool_decide_eq_true_2 by exact Haw. reflexivity.
Qed.

Lemma last_row_wins_witness :
  ({[ py "arwet" := (py "Werk", py "V") ]} : gmap str (str * str)) !! py "arwet"
  = Some ((Vocab.most_similar (py "arwet") (Str.split SEMI (py "Werk"))).2, py "V").
Proof.
  apply (last_row_wins (H := reference)
           (files [(vocabulary_path,
                    [tsv [py "Aarbecht"; py "N"; py "arwet"; py "Arbeit"];
                     tsv [py "Wierk"; py "V"; py "arwet"; py "Werk"]])])
           vocabulary_path (py "de") 3%nat
           [tsv [py "Aarbecht"; py "N"; py "arwet"; py "Arbeit"]]
           (tsv [py "Wierk"; py "V"; py "arwet"; py "Werk"]) [] w0 w0
           {[ py "arwet" := (py "Werk", py "V") ]}
           (py "V") (py "arwet") (py "Werk") (py "arwet")).
  - left. split; reflexivity.
  - reflexivity.
  - vm_compute. reflexivity.
  - reflexivity.
  - reflexivity.
  - reflexivity.
  - vm_compute. left.
  - constructor.
Defined.

(** X13: a vocabulary line with fewer than three columns raises
    [IndexError] for every language selector, before the selector is
    looked at: nothing is printed, also for an unsupported language. For
    'de' a line of exactly three columns raises [IndexError] as well. The
    lines before it have been read; their entries are lost with the
    exception. *)
Theorem vocabulary_line_too_short `{Externals} (fs1 fs : filesystem) path language
    l1 line l2 w w1 v1 :
  fs1 path = Some l1 ->
  Vocab.create_vocabulary fs1 path language w = (w1, Ok (Vocab.VDict v1)) ->
  fs path = Some (l1 ++ line :: l2) ->
  (length (Str.split TAB (Str.strip line)) < 3)%nat
  \/ (language = py "de" /\ length (Str.split TAB (Str.strip line)) = 3%nat) ->
  Vocab.create_vocabulary fs path language w = (w1, Raise IndexError).
Proof.
  intros Hfs1 Hrun1 Hfs Hshort.
  unfold Vocab.create_vocabulary, open_r in *. rewrite Hfs1 in Hrun1. rewrite Hfs.
  rewrite (bind_ok _ _ w w l1) in Hrun1 by reflexivity.
  rewrite (bind_ok _ _ w w (l1 ++ line :: l2)) by reflexivity.
  rewrite (read_vocabulary_app language l1 (line :: l2) _ _ _ _ Hrun1).
  cbn [Vocab.read_vocabulary]. cbv zeta. rewrite bind_run. unfold index at 1.
  destruct Hshort as [Hlen|[-> Hlen]].
  - rewrite (lookup_ge_None_2 _ 2%nat) by lia. reflexivity.
  - destruct (lookup_lt_is_Some_2 (Str.split TAB (Str.strip line)) 2%nat) as [c2 Hc2];
      [lia|].
    rewrite Hc2. cbn [mret Py_ret]. rewrite bind_run.
    unfold Vocab.translations_of. simpl. rewrite bind_run. unfold index.
    rewrite (lookup_ge_None_2 _ 3%nat) by lia. reflexivity.
Qed.

Lemma vocabulary_line_too_short_witness :
  Vocab.create_vocabulary
    (files [(vocabulary_path, [] ++ tsv [py "Aarbecht"; py "N"] :: [])])
    vocabulary_path (py "xx") w0
  = (w0, Raise IndexError).
Proof.
  apply (vocabulary_line_too_short (H := reference)
           (files [(vocabulary_path, [])])
           (files [(vocabulary_path, [] ++ tsv [py "Aarbecht"; py "N"] :: [])])
           vocabulary_path (py "xx") [] (tsv [py "Aarbecht"; py "N"]) [] w0 w0 ∅).
  - reflexivity.
  - reflexivity.
  - reflexivity.
  - left. vm_compute. lia.
Defined.

(** ** Entries that no token reaches *)

Lemma vocab_process_lines_ext `{Externals} g1 g2 width lines :
  (forall tokens w, Vocab.translate_tokens g1 tokens w = Vocab.translate_tokens g2 tokens w) ->
  forall i w, Vocab.process_lines g1 width i lines w = Vocab.process_lines g2 width i lines w.
Proof.
  intros Hext. induction lines as [|line lines IH]; intros i w; [reflexivity|].
  simpl. rewrite !bind_run.
  assert (Hline : Vocab.process_line g1 width i line w = Vocab.process_line g2 width i line w).
  { unfold Vocab.process_line, Vocab.joined_text. rewrite !bind_run.
    destruct (index (Str.split SEMI (Str.strip line)) 1 w) as [w1 [text|e]];
      [|reflexivity].
    cbv zeta. rewrite !bind_run, Hext. reflexivity. }
  rewrite Hline. destruct (Vocab.process_line g2 width i line w) as [w1 [[]|e]];
    [apply IH|reflexivity].
Qed.

(** X14: the keys of the vocabulary are stored as they are written in the
    file, and a token is looked up in lower case. An entry whose key is
    not the lower-case form of any string (a key with a capital letter) is
    therefore never used: the rows of a run are the same with and without
    it. *)
Theorem entry_never_looked_up `{Externals} (k : str) (v : str * str)
    (d : gmap str (str * str)) :
  (forall token, lower token <> k) ->
  forall fs path arg width w,
    Vocab.process_corpus (Some (Vocab.VDict (<[k := v]> d))) fs path arg width w
    = Vocab.process_corpus (Some (Vocab.VDict d)) fs path arg width w.
Proof.
  intros Hk fs path arg width w. unfold Vocab.process_corpus.
  rewrite !bind_run. cbn [open_w]. rewrite !bind_run. cbn [writerow].
  rewrite !bind_run.
  destruct (open_r fs path _) as [w1 [lines|e]]; [|reflexivity].
  apply vocab_process_lines_ext. intros tokens w2.
  rewrite !translate_tokens_dict. do 2 f_equal.
  apply map_ext. intros token.
  rewrite lookup_insert_ne by (intros Heq; exact (Hk token (eq_sym Heq))).
  reflexivity.
Qed.

Lemma reference_lower_not_capital (c : N) : Reference.lower_char c <> 82.
Proof.
  unfold Reference.lower_char.
  destruct (((65 <=? c) && (c <=? 90)) || ((192 <=? c) && (c <=? 222) && negb (c =? 215)))
    eqn:Hc; [|intros ->; discriminate Hc].
  intros Heq. assert (c = 50) as -> by lia. discriminate Hc.
Qed.

Lemma entry_never_looked_up_witness :
  Vocab.process_corpus (Some (Vocab.VDict (<[py "Ross" := (py "Pferd", py "N")]> ∅)))
                       one_word_files corpus_file_path Vocab.VNone 50 w0
  = Vocab.process_corpus (Some (Vocab.VDict ∅))
                         one_word_files corpus_file_path Vocab.VNone 50 w0.
Proof.
  apply (entry_never_looked_up (H := reference) (py "Ross") (py "Pferd", py "N") ∅).
  intros [|c token] Heq; [discriminate Heq|].
  injection Heq as Hc _. exact (reference_lower_not_capital c Hc).
Defined.

(** ** Lines of the rule file *)

Lemma read_rules_app `{Externals} lines1 rows1 lines2 dictionary w :
  Forall2 reads_as lines1 rows1 ->
  Rules.read_rules (lines1 ++ lines2) dictionary w
  = Rules.read_rules lines2 (fold_left add_row rows1 dictionary) w.
Proof.
  intros Hrows. revert dictionary.
  induction Hrows as [|line r lines rows Hr _ IH]; intros dictionary; [reflexivity|].
  simpl. rewrite (bind_ok _ _ _ _ _ (rule_columns_reads line r w Hr)).
  destruct r as [[link target] n]. apply IH.
Qed.

Lemma rule_columns_short `{Externals} (line : str) (w : world) :
  (length (Str.split TAB (Str.strip line)) < 3)%nat ->
  Rules.rule_columns line w = (w, Raise IndexError).
Proof.
  intros Hlen. unfold Rules.rule_columns, index.
  set (columns := Str.split TAB (Str.strip line)) in *.
  rewrite bind_run.
  destruct (columns !! 0%nat) as [link|]; [|reflexivity].
  cbn [mret Py_ret]. rewrite bind_run.
  destruct (columns !! 1%nat) as [target|]; [|reflexivity].
  cbn [mret Py_ret]. rewrite bind_run.
  rewrite (lookup_ge_None_2 columns 2%nat) by lia. reflexivity.
Qed.

Lemma rule_columns_bad_count `{Externals} (line count : str) (w : world) :
  Str.split TAB (Str.strip line) !! 2%nat = Some count ->
  parse_int count = None ->
  Rules.rule_columns line w = (w, Raise ValueError).
Proof.
  intros Hcount Hint. unfold Rules.rule_columns, index.
  set (columns := Str.split TAB (Str.strip line)) in *.
  assert (Hlen : (2 < length columns)%nat) by (eapply lookup_lt_Some, Hcount).
  destruct (lookup_lt_is_Some_2 columns 0%nat) as [link Hlink]; [lia|].
  destruct (lookup_lt_is_Some_2 columns 1%nat) as [target Htarget]; [lia|].
  rewrite bind_run, Hlink. cbn [mret Py_ret].
  rewrite bind_run, Htarget. cbn [mret Py_ret].
  rewrite bind_run, Hcount. cbn [mret Py_ret].
  rewrite bind_run. unfold int. rewrite Hint. reflexivity.
Qed.

Lemma create_dictionary_raises `{Externals} fs path lines1 rows1 line lines2 w e :
  fs path = Some (lines1 ++ line :: lines2) ->
  Forall2 reads_as lines1 rows1 ->
  e <> FileNotFoundError ->
  Rules.rule_columns line w = (w, Raise e) ->
  Rules.create_dictionary fs path w = (w, Raise e).
Proof.
  intros Hfs Hrows He Hline.
  unfold Rules.create_dictionary, try_except, open_r. rewrite Hfs.
  rewrite (bind_ok _ _ w w (lines1 ++ line :: lines2)) by reflexivity.
  assert (Hread : Rules.read_rules (lines1 ++ line :: lines2) [] w = (w, Raise e)).
  { rewrite (read_rules_app lines1 rows1) by exact Hrows.
    simpl. apply bind_raise, Hline. }
  rewrite (bind_raise _ _ _ _ _ Hread).
  rewrite bool_decide_eq_false_2 by exact He. reflexivity.
Qed.

(** X15: a line of the rule file with fewer than three columns ends
    [create_dictionary] with [IndexError], and a line whose third column
    [int] does not accept ends it with [ValueError]: the handler for the
    missing file does not catch either, nothing is printed and no table is
    returned, whatever the lines before it held. *)
Theorem rule_line_malformed `{Externals} fs path lines1 rows1 line lines2 w :
  fs path = Some (lines1 ++ line :: lines2) ->
  Forall2 reads_as lines1 rows1 ->
  ((length (Str.split TAB (Str.strip line)) < 3)%nat ->
   Rules.create_dictionary fs path w = (w, Raise IndexError))
  /\ (forall count,
        Str.split TAB (Str.strip line) !! 2%nat = Some count ->
        parse_int count = None ->
        Rules.create_dictionary fs path w = (w, Raise ValueError)).
Proof.
  intros Hfs Hrows. split.
  - intros Hlen.
    apply (create_dictionary_raises fs path lines1 rows1 line lines2 w IndexError
             Hfs Hrows); [discriminate|].
    apply rule_columns_short, Hlen.
  - intros count Hcount Hint.
    apply (create_dictionary_raises fs path lines1 rows1 line lines2 w ValueError
             Hfs Hrows); [discriminate|].
    apply (rule_columns_bad_count line count w Hcount Hint).
Qed.

Lemma rule_line_malformed_witness :
  Rules.create_dictionary
    (files [(rules_path, [tsv [py "ai"; py "ei"; py "12"]]
                         ++ tsv [py "ay"; py "ei"; py "many"] :: [])])
    rules_path w0
  = (w0, Raise ValueError).
Proof.
  assert (Hrows : Forall2 reads_as [tsv [py "ai"; py "ei"; py "12"]]
                    [(py "ai", py "ei", 12%Z)]) by read_rows.
  apply (proj2 (rule_line_malformed (H := reference)
                  (files [(rules_path, [tsv [py "ai"; py "ei"; py "12"]]
                                       ++ tsv [py "ay"; py "ei"; py "many"] :: [])])
                  rules_path [tsv [py "ai"; py "ei"; py "12"]] [(py "ai", py "ei", 12%Z)]
                  (tsv [py "ay"; py "ei"; py "many"]) [] w0 eq_refl Hrows)
               (py "many"));
    vm_compute; reflexivity.
Defined.

(** ** The table as a dictionary *)

Lemma links_for_In target rows (link : str) :
  In link (links_for target rows)
  <-> exists n, In (link, target, n) rows /\ (10 <= n)%Z.
Proof.
  unfold links_for. rewrite in_map_iff. split.
  - intros ([[l t] n] & Hl & Hin). simpl in Hl. subst l.
    apply filter_In in Hin as [Hin Hf]. apply andb_true_iff in Hf as [Hf Ht].
    apply bool_decide_eq_true in Ht. simpl in Ht. subst t.
    exists n. split; [exact Hin|apply Z.leb_le, Hf].
  - intros (n & Hin & Hn). exists (link, target, n). split; [reflexivity|].
    apply filter_In. split; [exact Hin|].
    apply andb_true_iff. split; [apply Z.leb_le, Hn|].
    apply bool_decide_eq_true_2. reflexivity.
Qed.

Lemma targets_In target rows :
  In target (targets rows) <-> exists link n, In (link, target, n) rows /\ (10 <= n)%Z.
Proof.
  unfold targets. rewrite in_map_iff. split.
  - intros ([[l t] n] & Ht & Hin). simpl in Ht. subst t.
    apply filter_In in Hin as [Hin Hf]. exists l, n. split; [exact Hin|apply Z.leb_le, Hf].
  - intros (link & n & Hin & Hn). exists (link, target, n). split; [reflexivity|].
    apply filter_In. split; [exact Hin|apply Z.leb_le, Hn].
Qed.

Lemma set_iter_In `{Externals} (l : list str) (x : str) : In x (set_iter l) <-> In x l.
Proof. rewrite <- !list_elem_of_In, (set_iter_perm l). reflexivity. Qed.

Lemma forms_of_target_not_nil `{Externals} target rows :
  In target (targets rows) -> set_iter (first_seen (links_for target rows)) <> [].
Proof.
  intros Ht Hnil. apply targets_In in Ht as (link & n & Hin & Hn).
  assert (Hl : In link (set_iter (first_seen (links_for target rows)))).
  { apply set_iter_In, first_seen_In, links_for_In. eauto. }
  rewrite Hnil in Hl. destruct Hl.
Qed.



Lemma table_of_repeated_row `{Externals} rows (link target : str) (n1 n2 : Z) :
  In (link, target, n1) rows -> (10 <= n1)%Z ->
  table_of (rows ++ [(link, target, n2)]) = table_of rows.
Proof.
  intros Hin Hn1.
  destruct (frequent (link, target, n2)) eqn:Hfreq.
  2: { rewrite (table_of_rare_row rows [] _ Hfreq), app_nil_r. reflexivity. }
  rewrite !table_of_map, targets_snoc, Hfreq. simpl.
  rewrite first_seen_snoc.
  rewrite bool_decide_eq_true_2
    by (apply list_elem_of_In, first_seen_In, targets_In; eauto).
  apply map_ext. intros t. rewrite links_for_snoc, Hfreq. simpl.
  destruct (decide (target = t)) as [<-|Hne].
  - rewrite bool_decide_eq_true_2 by reflexivity.
    rewrite first_seen_snoc.
    rewrite bool_decide_eq_true_2
      by (apply list_elem_of_In, first_seen_In, links_for_In; eauto).
    reflexivity.
  - rewrite bool_decide_eq_false_2 by exact Hne. rewrite app_nil_r. reflexivity.
Qed.

(** X17: the source forms of a target form are a set: a line added at the
    end of the rule file that repeats the source form and the target form
    of an earlier row counted 10 times or more, with whatever count [int]
    reads in it, leaves the table as it was. *)
Theorem repeated_row_changes_nothing `{Externals} (fs fs' : filesystem) path
    lines rows line (link target : str) (n1 n2 : Z) w :
  fs path = Some lines ->
  fs' path = Some (lines ++ [line]) ->
  Forall2 reads_as lines rows ->
  reads_as line (link, target, n2) ->
  In (link, target, n1) rows -> (10 <= n1)%Z ->
  Rules.create_dictionary fs' path w = Rules.create_dictionary fs path w.
Proof.
  intros Hfs Hfs' Hrows Hline Hin Hn1.
  rewrite (create_dictionary_rows fs path lines rows w Hfs Hrows).
  rewrite (create_dictionary_rows fs' path (lines ++ [line]) (rows ++ [(link, target, n2)])
             w Hfs').
  - rewrite (table_of_repeated_row rows link target n1 n2 Hin Hn1). reflexivity.
  - apply Forall2_app; [exact Hrows|]. constructor; [exact Hline|constructor].
Qed.

Lemma repeated_row_changes_nothing_witness :
  Rules.create_dictionary
    (files [(rules_path, ei_rules ++ [tsv [py "ai"; py "ei"; py "3"]])]) rules_path w0
  = Rules.create_dictionary ei_files rules_path w0.
Proof.
  apply (repeated_row_changes_nothing (H := reference) ei_files
           (files [(rules_path, ei_rules ++ [tsv [py "ai"; py "ei"; py "3"]])])
           rules_path ei_rules [(py "ai", py "ei", 12%Z); (py "ay", py "ei", 30%Z)]
           (tsv [py "ai"; py "ei"; py "3"]) (py "ai") (py "ei") 12%Z 3%Z w0).
  - reflexivity.
  - reflexivity.
  - read_rows.
  - read_row.
  - left. reflexivity.
  - lia.
Defined.

(** ** Tokens that no rule matches *)

Lemma startswith_prefix (f s : str) :
  Str.startswith f s = true -> exists post, s = f ++ post.
Proof.
  revert s. induction f as [|x f IH]; intros s Hs.
  - exists s. reflexivity.
  - destruct s as [|y s]; [discriminate|].
    simpl in Hs. apply andb_true_iff in Hs as [Hxy Hs].
    apply N.eqb_eq in Hxy. subst y.
    destruct (IH s Hs) as [post ->]. exists post. reflexivity.
Qed.

Lemma startswith_contains (f s : str) : Str.startswith f s = true -> contains s f.
Proof.
  intros Hs. destruct (startswith_prefix f s Hs) as [post ->].
  exists [], post. reflexivity.
Qed.

Lemma contains_cons (c : N) (s f : str) : contains s f -> contains (c :: s) f.
Proof. intros (pre & post & ->). exists (c :: pre), post. reflexivity. Qed.

Lemma match_here_none (forms : list str) (s : str) :
  (forall f, In f forms -> ~ contains s f) -> match_here forms s = None.
Proof.
  intros Hforms. unfold match_here.
  destruct (List.find (fun f => Str.startswith f s) forms) as [g|] eqn:Hfind;
    [|reflexivity].
  apply find_some in Hfind as [Hin Hstart].
  exfalso. exact (Hforms g Hin (startswith_contains g s Hstart)).
Qed.

Lemma search_literal_none (forms : list str) (s : str) :
  (forall f, In f forms -> ~ contains s f) -> search_literal forms s = None.
Proof.
  induction s as [|c s IH]; intros Hforms.
  - simpl. rewrite match_here_none by exact Hforms. reflexivity.
  - simpl. rewrite match_here_none by exact Hforms.
    apply IH. intros f Hf Hc. exact (Hforms f Hf (contains_cons c s f Hc)).
Qed.

Lemma link_token_no_match `{Externals} rows (token : str) (keys : list str) :
  Forall (fun r : str * str * Z =>
            frequent r = true -> literal r.1.1 = true /\ ~ contains token r.1.1) rows ->
  (forall t, In t keys -> In t (targets rows)) ->
  forall w,
    Rules.link_token
      (List.map (fun t => (t, [alternation (set_iter (first_seen (links_for t rows)))])) keys)
      token w
    = (w, Ok token).
Proof.
  intros Hrows Hkeys w. unfold Rules.link_token.
  induction keys as [|t keys IH]; [reflexivity|].
  assert (Hform : forall f, In f (set_iter (first_seen (links_for t rows))) ->
                            literal f = true /\ ~ contains token f).
  { intros f Hf. apply set_iter_In, first_seen_In, links_for_In in Hf as (n & Hin & Hn).
    rewrite Forall_forall in Hrows.
    apply (Hrows (f, t, n)); [apply list_elem_of_In, Hin|apply Z.leb_le, Hn]. }
  assert (Hstep : for_each (Rules.apply_pattern t)
                    (set_iter [alternation (set_iter (first_seen (links_for t rows)))])
                    token w
                  = (w, Ok token)).
  { rewrite set_iter_singleton. simpl. unfold Rules.apply_pattern.
    rewrite re_search_literal.
    - rewrite search_literal_none by (intros f Hf; apply (Hform f Hf)). reflexivity.
    - apply forms_of_target_not_nil, Hkeys. left. reflexivity.
    - apply forallb_forall. intros f Hf. apply (Hform f Hf). }
  cbn [List.map for_each fst snd].
  rewrite (bind_ok _ _ _ _ _ Hstep).
  apply IH. intros t' Ht'. apply Hkeys. right. exact Ht'.
Qed.

(** X18: a token that contains none of the source forms of the rows
    counted 10 times or more is left as it is, and without an error, by the
    table built from a rule file each line of which reads as a row (the
    source forms of those rows being plain text, without
    regular-expression metacharacters): the rule-based step then only
    normalises its accents. *)
Theorem token_without_source_form `{Externals} fs path lines rows (token : str) w :
  fs path = Some lines ->
  Forall2 reads_as lines rows ->
  Forall (fun r : str * str * Z =>
            frequent r = true -> literal r.1.1 = true /\ ~ contains token r.1.1) rows ->
  exists table,
    Rules.create_dictionary fs path w = (w, Ok table)
    /\ Rules.link_token table token w = (w, Ok token).
Proof.
  intros Hfs Hrows Hforms. exists (table_of rows).
  split; [exact (create_dictionary_rows fs path lines rows w Hfs Hrows)|].
  rewrite table_of_map. apply link_token_no_match; [exact Hforms|].
  intros t Ht. apply first_seen_In, Ht.
Qed.

Lemma not_contains_longer (s f : str) : (length s < length f)%nat -> ~ contains s f.
Proof.
  intros Hlen (pre & post & ->). rewrite !length_app in Hlen. lia.
Qed.

Lemma token_without_source_form_witness :
  exists table,
    Rules.create_dictionary
      (files [(rules_path, [tsv [py "frai"; py "frei"; py "15"]])]) rules_path w0
    = (w0, Ok table)
    /\ Rules.link_token table (py "do") w0 = (w0, Ok (py "do")).
Proof.
  apply (token_without_source_form (H := reference)
           (files [(rules_path, [tsv [py "frai"; py "frei"; py "15"]])]) rules_path
           [tsv [py "frai"; py "frei"; py "15"]] [(py "frai", py "frei", 15%Z)]
           (py "do") w0).
  - reflexivity.
  - read_rows.
  - constructor; [|constructor]. intros _. split; [reflexivity|].
    apply not_contains_longer. simpl. lia.
Defined.

(** ** A line of the rule-based transformer that has a token *)

(** X19: in the rule-based transformer a line whose text field gives at
    least one token is processed on its own: its outcome, an error that
    [re.search] raises on a pattern of the table included, is the same
    whatever the earlier lines left behind; and when the table rewrites
    every token, the joined text is made of the rewritten tokens, each
    accent-normalised, in the order of the line. *)
Theorem rules_line_with_tokens `{Externals} linked_dict i line text token tokens linked
    u w :
  Str.split SEMI (Str.strip line) !! 1%nat = Some text ->
  tokenise text = token :: tokens ->
  Rules.process_line linked_dict i line u w = Rules.process_line linked_dict i line None w
  /\ Rules.joined_text linked_dict line u w = Rules.joined_text linked_dict line None w
  /\ (Forall2 (links_to linked_dict) (token :: tokens) linked ->
      Rules.joined_text linked_dict line u w
      = (w, Ok (Str.join (py " ") (List.map normalize_accents linked),
                Some (List.map normalize_accents linked)))).
Proof.
  intros Htext Htok. split; [|split].
  - exact (rules_process_line_fresh _ _ _ _ _ _ u None w Htext Htok).
  - exact (rules_joined_text_fresh _ _ _ _ _ u None w Htext Htok).
  - intros Hlinked.
    exact (rules_joined_text_tokens _ _ _ _ _ _ u w Htext Htok Hlinked).
Qed.

Lemma no_rule_links `{Externals} (token : str) : links_to [] token token.
Proof. intros w. reflexivity. Qed.

Lemma rules_line_with_tokens_witness :
  Rules.joined_text [] frai_line (Some [py "Guete"; py "Morge"]) w0
  = (w0, Ok (py "Min Frai isch do",
             Some [py "Min"; py "Frai"; py "isch"; py "do"])).
Proof.
  apply (rules_line_with_tokens (H := reference) [] 1%Z frai_line
           (py "Min Frai isch do") (py "Min") [py "Frai"; py "isch"; py "do"]
           [py "Min"; py "Frai"; py "isch"; py "do"]
           (Some [py "Guete"; py "Morge"]) w0 eq_refl eq_refl).
  repeat (constructor 2; [apply no_rule_links|]). constructor 1.
Defined.

(** A pattern that [re.compile] refuses: the line ends with the error and
    writes no row. *)
Example unbalanced_pattern_raises :
  Rules.process_line [(py "x", [py "(()"])] 1 frai_line None w0 = (w0, Raise ReError).
Proof. vm_compute. reflexivity. Qed.

(** ** The translation that is stored *)

(** X20: the translation that the vocabulary builder keeps for an alsatian
    word among its candidates: when some candidate has a positive ratio,
    the first candidate whose ratio is the greatest (every candidate before
    it has a smaller ratio, none after it a greater one); when none has, the
    empty string. *)
Theorem chosen_translation `{Externals} (aw : str) (tab : list str) :
  (Forall (fun t => (ratio aw t <= 0)%Q) tab
   /\ (Vocab.most_similar aw tab).2 = [])
  \/ (exists pre post,
        tab = pre ++ (Vocab.most_similar aw tab).2 :: post
        /\ (0 < ratio aw (Vocab.most_similar aw tab).2)%Q
        /\ Forall (fun p => (ratio aw p < ratio aw (Vocab.most_similar aw tab).2)%Q) pre
        /\ Forall (fun q => (ratio aw q <= ratio aw (Vocab.most_similar aw tab).2)%Q) post).
Proof.
  destruct (most_similar_from aw tab 0%Q [])
    as [[Hall Hfold]|(pre & t & post & Htab & Hfold & Hpos & Hpre & Hpost)];
    unfold Vocab.most_similar; rewrite Hfold; simpl.
  - left. split; [exact Hall|reflexivity].
  - right. exists pre, post. repeat split; assumption.
Qed.

(** ** One rule on one token *)

Lemma search_literal_one_form (f s g : str) :
  search_literal [f] s = Some g -> g = f.
Proof.
  induction s as [|c s IH]; simpl; unfold match_here; simpl;
    destruct (Str.startswith f _); try congruence.
  exact IH.
Qed.

Lemma replace_from_no_occurrence (f new s : str) :
  search_literal [f] s = None -> Str.replace_from f new s 0 = s.
Proof.
  induction s as [|c s IH]; [reflexivity|].
  simpl. unfold match_here. simpl.
  destruct (Str.startswith f (c :: s)); [discriminate|].
  intros Hs. rewrite (IH Hs). reflexivity.
Qed.

(** X21: a rule with one literal, non-empty source form rewrites a token
    as [str.replace] does: every occurrence of the source form in the
    token, not only the one that [re.search] found, becomes the target
    form, and a token without the source form is unchanged. *)
Theorem single_rule_replaces_everywhere `{Externals} (key form token : str) :
  form <> [] -> literal form = true ->
  forall w,
    Rules.link_token [(key, [alternation [form]])] token w
    = (w, Ok (Str.replace form key token)).
Proof.
  intros Hne Hlit w.
  rewrite link_token_one_rule by (discriminate || (simpl; rewrite Hlit; reflexivity)).
  destruct (search_literal [form] token) as [g|] eqn:Hsearch.
  - apply search_literal_one_form in Hsearch. subst g. reflexivity.
  - destruct form as [|x form]; [congruence|].
    unfold Str.replace. rewrite replace_from_no_occurrence by exact Hsearch.
    reflexivity.
Qed.

Lemma single_rule_replaces_everywhere_witness :
  Rules.link_token [(py "u", [alternation [py "uu"]])] (py "Huus un Muus") w0
  = (w0, Ok (Str.replace (py "uu") (py "u") (py "Huus un Muus"))).
Proof.
  apply (single_rule_replaces_everywhere (H := reference) (py "u") (py "uu")
           (py "Huus un Muus")).
  - discriminate.
  - reflexivity.
Defined.

(** The token of the witness: both occurrences are rewritten. *)
Example huus_un_muus :
  Rules.link_token [(py "u", [alternation [py "uu"]])] (py "Huus un Muus") w0
  = (w0, Ok (py "Hus un Mus")).
Proof. vm_compute. reflexivity. Qed.
